(** * playwright_stealth/stealth.py: patch selection, composition and
      header spoofing

    A shallow embedding of [src/playwright_stealth/stealth.py].

    - A Python [str] is the list of its code points ([list N]); [py] turns a
      literal into one.  [json.dumps] escapes by code point, so bytes would
      not do.
    - [SCRIPTS] and the header dictionaries are [gmap]s keyed by [str].
    - Exceptions are the [Raise] branch of [res]; code that touches the page
      runs in the state-and-exception monad [M] over the page's
      registrations.
    - Calling an [async def] yields an [awaitable] whose body runs only when
      it is awaited. *)

From Stdlib Require Import NArith String Ascii.
From stdpp Require Import base option list gmap.

Local Open Scope N_scope.

(** ** Python strings *)

Abbreviation str := (list N).

Definition py (s : string) : str := N_of_ascii <$> list_ascii_of_string s.

(** The characters the source writes with an escape or inside single quotes. *)
Definition NL : str := [10].
Definition TAB : str := [9].
Definition DQ : str := [34].

(** [sep.join(parts)] *)
Fixpoint str_join (sep : str) (parts : list str) : str :=
  match parts with
  | [] => []
  | [x] => x
  | x :: rest => x ++ sep ++ str_join sep rest
  end.

(** [s.startswith(t)] *)
Fixpoint startswith (s t : str) {struct t} : bool :=
  match t with
  | [] => true
  | c :: t' =>
      match s with
      | [] => false
      | d :: s' => (c =? d) && startswith s' t'
      end
  end.

(** [s.endswith(t)] *)
Definition endswith (s t : str) : bool := startswith (reverse s) (reverse t).

(** [t in s] *)
Fixpoint str_in (t s : str) : bool :=
  startswith s t ||
  match s with
  | [] => false
  | _ :: s' => str_in t s'
  end.

(** ** Exceptions *)

Inductive exn :=
| FileNotFoundError (filename : str)
| PermissionError (filename : str)
| UnicodeDecodeError
| KeyError (key : str).

Inductive res (A : Type) :=
| Ok (a : A)
| Raise (e : exn).
Arguments Ok {A} a.
Arguments Raise {A} e.

#[global] Instance res_ret : MRet res := fun A a => Ok a.

#[global] Instance res_bind : MBind res := fun A B k r =>
  match r with
  | Ok a => k a
  | Raise e => Raise e
  end.

(** [d[k]] *)
Definition getitem (d : gmap str str) (k : str) : res str :=
  match d !! k with
  | Some v => Ok v
  | None => Raise (KeyError k)
  end.

(** ** json.dumps, for the values the source passes to it *)

#[warnings="-register-all"]
Inductive json :=
| JNull
| JBool (b : bool)
| JStr (s : str)
| JList (items : list json)
| JDict (items : list (str * json)).

Definition hex_digit (d : N) : N := if d <? 10 then 48 + d else 87 + d.

Fixpoint hex_digits (fuel : nat) (n : N) : str :=
  match fuel with
  | O => []
  | S f => (if n <? 16 then [] else hex_digits f (N.shiftr n 4))
             ++ [hex_digit (N.land n 15)]
  end.

(** ['{0:04x}'.format(n)] *)
Definition format_04x (n : N) : str :=
  let d := hex_digits (S (N.to_nat (N.log2 n))) n in
  replicate (4 - length d)%nat 48 ++ d.

(** The replacement [json.encoder] makes for one character with
    [ensure_ascii] on: [ESCAPE_DCT] first, then [\uXXXX], with a surrogate
    pair above the basic plane. *)
Definition escape_char (c : N) : str :=
  if c =? 92 then [92; 92]
  else if c =? 34 then [92; 34]
  else if c =? 8 then py "\b"
  else if c =? 12 then py "\f"
  else if c =? 10 then py "\n"
  else if c =? 13 then py "\r"
  else if c =? 9 then py "\t"
  else if (32 <=? c) && (c <=? 126) then [c]
  else if c <? 0x10000 then py "\u" ++ format_04x c
  else
    let n := c - 0x10000 in
    let s1 := N.lor 0xd800 (N.land (N.shiftr n 10) 0x3ff) in
    let s2 := N.lor 0xdc00 (N.land n 0x3ff) in
    py "\u" ++ format_04x s1 ++ py "\u" ++ format_04x s2.

Definition encode_basestring_ascii (s : str) : str :=
  DQ ++ concat (escape_char <$> s) ++ DQ.

Fixpoint dumps (v : json) : str :=
  match v with
  | JNull => py "null"
  | JBool true => py "true"
  | JBool false => py "false"
  | JStr s => encode_basestring_ascii s
  | JList items => py "[" ++ str_join (py ", ") (map dumps items) ++ py "]"
  | JDict items =>
      py "{"
      ++ str_join (py ", ")
           (map (fun kv => encode_basestring_ascii (fst kv) ++ py ": " ++ dumps (snd kv))
                items)
      ++ py "}"
  end.

Definition json_of_optional_str (o : option str) : json :=
  match o with Some s => JStr s | None => JNull end.

Definition json_of_optional_bool (o : option bool) : json :=
  match o with Some b => JBool b | None => JNull end.

(** ** Generators

    A generator body is run to exhaustion by both of its callers, so it is
    modelled by what it returns together with everything it yielded before;
    an exception raised between two yields discards both. *)

Definition Gen (A : Type) : Type := res (A * list str).

#[global] Instance Gen_ret : MRet Gen := fun A a => Ok (a, []).

#[global] Instance Gen_bind : MBind Gen := fun A B k g =>
  match g with
  | Ok (a, out1) =>
      match k a with
      | Ok (b, out2) => Ok (b, out1 ++ out2)
      | Raise e => Raise e
      end
  | Raise e => Raise e
  end.

Definition yield (s : str) : Gen unit := Ok (tt, [s]).

Definition eval {A} (r : res A) : Gen A :=
  match r with
  | Ok a => Ok (a, [])
  | Raise e => Raise e
  end.

(** [if b: body] *)
Definition when (b : bool) (body : Gen unit) : Gen unit :=
  if b then body else mret tt.

(** [for x in g: scripts.append(x)] on a fresh list *)
Definition collect (g : Gen unit) : res (list str) :=
  match g with
  | Ok (_, out) => Ok out
  | Raise e => Raise e
  end.

(** ** The module's surroundings: its directory and the files under it *)

Inductive file :=
| Absent
| Denied
| NotUtf8
| Text (content : str).

(** [posixpath.join(a, *p)]: what [os.path.join] is where [os.path] is
    [posixpath] (Linux, macOS). *)
Definition posixpath_join (a : str) (p : list str) : str :=
  foldl (fun path b =>
           if startswith b (py "/") then b
           else if bool_decide (path = []) || endswith path (py "/") then path ++ b
           else path ++ py "/" ++ b)
        a p.

(** Python evaluates the entries of a dict display in order and stores each
    one as soon as its value is known. *)
Fixpoint dict_display (items : list (str * res str)) (d : gmap str str)
  : res (gmap str str) :=
  match items with
  | [] => Ok d
  | (k, v) :: rest => x ← v; dict_display rest (<[k := x]> d)
  end.

Section Registry.

(** [os.path.join] of the platform the module runs on ([posixpath.join] or
    [ntpath.join]); the module hands its result to [open] and does nothing
    else with it. *)
Variable os_path_join : str -> list str -> str.

(** [os.path.dirname(__file__)] and the file system as [open] sees it *)
Variable module_dir : str.
Variable fs : str -> file.

(** [with open(filename, encoding="utf-8") as f: return f.read()] *)
Definition open_read (filename : str) : res str :=
  match fs filename with
  | Absent => Raise (FileNotFoundError filename)
  | Denied => Raise (PermissionError filename)
  | NotUtf8 => Raise UnicodeDecodeError
  | Text content => Ok content
  end.

Definition from_file (name : str) : res str :=
  let filename := os_path_join module_dir [py "js"; name] in
  open_read filename.

Definition SCRIPTS : res (gmap str str) :=
  dict_display
    [ (py "chrome_csi", from_file (py "chrome.csi.js"));
      (py "chrome_app", from_file (py "chrome.app.js"));
      (py "chrome_runtime", from_file (py "chrome.runtime.js"));
      (py "chrome_load_times", from_file (py "chrome.load.times.js"));
      (py "generate_magic_arrays", from_file (py "generate.magic.arrays.js"));
      (py "iframe_content_window", from_file (py "iframe.contentWindow.js"));
      (py "media_codecs", from_file (py "media.codecs.js"));
      (py "navigator_vendor", from_file (py "navigator.vendor.js"));
      (py "navigator_plugins", from_file (py "navigator.plugins.js"));
      (py "navigator_permissions", from_file (py "navigator.permissions.js"));
      (py "navigator_languages", from_file (py "navigator.languages.js"));
      (py "navigator_user_agent", from_file (py "navigator.userAgent.js"));
      (py "navigator_hardware_concurrency",
        from_file (py "navigator.hardwareConcurrency.js"));
      (py "outerdimensions", from_file (py "window.outerdimensions.js"));
      (py "utils", from_file (py "utils.js"));
      (py "webdriver", from_file (py "navigator.webdriver.js"));
      (py "webgl_vendor", from_file (py "webgl.vendor.js")) ]
    ∅.

End Registry.

(** ** StealthConfig *)

Record StealthConfig := {
  (* load script options *)
  webdriver : bool;
  webgl_vendor : bool;
  chrome_app : bool;
  chrome_csi : bool;
  chrome_load_times : bool;
  chrome_runtime : bool;
  iframe_content_window : bool;
  media_codecs : bool;
  navigator_hardware_concurrency : Z;
  navigator_languages : bool;
  navigator_permissions : bool;
  navigator_plugins : bool;
  navigator_user_agent : bool;
  navigator_vendor : bool;
  outerdimensions : bool;
  (* options *)
  vendor : str;
  renderer : str;
  nav_vendor : str;
  nav_user_agent : option str;
  nav_platform : option str;
  languages : list str;
  runOnInsecureOrigins : option bool
}.

(** [StealthConfig()] *)
Definition StealthConfig_defaults : StealthConfig := {|
  webdriver := true;
  webgl_vendor := true;
  chrome_app := true;
  chrome_csi := true;
  chrome_load_times := true;
  chrome_runtime := true;
  iframe_content_window := true;
  media_codecs := true;
  navigator_hardware_concurrency := 4;
  navigator_languages := true;
  navigator_permissions := true;
  navigator_plugins := true;
  navigator_user_agent := true;
  navigator_vendor := true;
  outerdimensions := true;
  vendor := py "Intel Inc.";
  renderer := py "Intel Iris OpenGL Engine";
  nav_vendor := py "Google Inc.";
  nav_user_agent := None;
  nav_platform := None;
  languages := [py "en-US"; py "en"];
  runOnInsecureOrigins := None
|}.

Section EnabledScripts.

(** The module global [SCRIPTS], once the module has been imported. *)
Variable SCRIPTS : gmap str str.

Definition yield_item (k : str) : Gen unit :=
  v ← eval (getitem SCRIPTS k); yield v.

(** The dictionary handed to [json.dumps]. *)
Definition opts_dict (self : StealthConfig) : json :=
  JDict
    [ (py "webgl_vendor", JStr (vendor self));
      (py "webgl_renderer", JStr (renderer self));
      (py "navigator_vendor", JStr (nav_vendor self));
      (py "navigator_platform", json_of_optional_str (nav_platform self));
      (py "navigator_user_agent", json_of_optional_str (nav_user_agent self));
      (py "languages", JList (JStr <$> languages self));
      (py "runOnInsecureOrigins", json_of_optional_bool (runOnInsecureOrigins self)) ].

Definition enabled_scripts (self : StealthConfig) : Gen unit :=
  let opts := dumps (opts_dict self) in
  (* defined options constant *)
  yield (py "const opts = " ++ opts);;
  (* init utils and generate_magic_arrays helper *)
  yield_item (py "utils");;
  yield_item (py "generate_magic_arrays");;
  when (chrome_app self) (yield_item (py "chrome_app"));;
  when (chrome_csi self) (yield_item (py "chrome_csi"));;
  when (chrome_load_times self) (yield_item (py "chrome_load_times"));;
  when (chrome_runtime self) (yield_item (py "chrome_runtime"));;
  when (iframe_content_window self) (yield_item (py "iframe_content_window"));;
  when (media_codecs self) (yield_item (py "media_codecs"));;
  when (navigator_languages self) (yield_item (py "navigator_languages"));;
  when (navigator_permissions self) (yield_item (py "navigator_permissions"));;
  when (navigator_plugins self) (yield_item (py "navigator_plugins"));;
  when (navigator_user_agent self) (yield_item (py "navigator_user_agent"));;
  when (navigator_vendor self) (yield_item (py "navigator_vendor"));;
  when (webdriver self) (yield_item (py "webdriver"));;
  when (outerdimensions self) (yield_item (py "outerdimensions"));;
  when (webgl_vendor self) (yield_item (py "webgl_vendor")).

End EnabledScripts.

(** ** The page *)

Inductive route_action :=
| Continue (headers : gmap str str).

Record Request := { headers : gmap str str }.

Record route_entry := {
  url : str;
  handler : Request -> route_action
}.

(** Modelled from the spec: the page of the browser-automation driver, which
    is not part of this repository (sections 4.4, 4.5 and 6).  A page keeps
    the init scripts and the interception rules registered on it, each in
    registration order; registering appends. *)
Record PageState := {
  init_scripts : list str;
  routes : list route_entry
}.

Definition M (A : Type) : Type := PageState -> res A * PageState.

#[global] Instance M_ret : MRet M := fun A a page => (Ok a, page).

#[global] Instance M_bind : MBind M := fun A B k m page =>
  match m page with
  | (Ok a, page') => k a page'
  | (Raise e, page') => (Raise e, page')
  end.

Definition lift {A} (r : res A) : M A := fun page => (r, page).

Definition register_init_script (script : str) : M unit := fun page =>
  (Ok tt, {| init_scripts := init_scripts page ++ [script]; routes := routes page |}).

Definition register_route (u : str) (h : Request -> route_action) : M unit := fun page =>
  (Ok tt, {| init_scripts := init_scripts page;
             routes := routes page ++ [{| url := u; handler := h |}] |}).

(** Calling an [async def] function runs nothing; it returns a coroutine
    object, and [await] runs the body. *)
Inductive awaitable (A : Type) :=
| Coroutine (body : M A).
Arguments Coroutine {A} body.

Definition await {A} (c : awaitable A) : M A :=
  match c with Coroutine body => body end.

(** A page object is the pair of methods the module calls on it.  Those of
    [playwright.sync_api] act at the call and return [None]; those of
    [playwright.async_api] are [async def] themselves. *)
Record Page (R : Type) := {
  page_route : str -> (Request -> route_action) -> M R;
  page_add_init_script : str -> M R
}.
Arguments page_route {R} _ _ _.
Arguments page_add_init_script {R} _ _.

Definition SyncPage : Page unit := {|
  page_route := register_route;
  page_add_init_script := register_init_script
|}.

Definition AsyncPage : Page (awaitable unit) := {|
  page_route := fun u h => mret (Coroutine (register_route u h));
  page_add_init_script := fun script => mret (Coroutine (register_init_script script))
|}.

(** ** Header spoofing *)

(** [{**d, k1: v1, ..., kn: vn}] *)
Definition dict_unpack_then (d : gmap str str) (items : list (str * str)) : gmap str str :=
  foldl (fun acc kv => <[kv.1 := kv.2]> acc) d items.

Definition stealth_header_items : list (str * str) :=
  [ (py "sec-ch-ua",
      DQ ++ py "Chromium" ++ DQ ++ py ";v=" ++ DQ ++ py "129" ++ DQ ++ py ", "
      ++ DQ ++ py "Not=A?Brand" ++ DQ ++ py ";v=" ++ DQ ++ py "8" ++ DQ);
    (py "sec-ch-ua-mobile", py "?0");
    (py "sec-ch-ua-platform", DQ ++ py "macOS" ++ DQ);
    (py "sec-ch-ua-form-factors", py "desktop");
    (py "upgrade-insecure-requests", py "1");
    (py "dnt", py "1");
    (py "user-agent",
      py "Mozilla/5.0 (Macintosh; Intel Mac OS X 10_15_7) AppleWebKit/537.36 (KHTML, like Gecko) Chrome/129.0.0.0 Safari/537.36");
    (py "accept",
      TAB ++ py "text/html,application/xhtml+xml,application/xml;q=0.9,image/avif,image/webp,image/apng,*/*;q=0.8,application/signed-exchange;v=b3;q=0.7");
    (py "sec-fetch-site", py "cross-site");
    (py "sec-fetch-mode", py "navigate");
    (py "sec-fetch-user", py "?1");
    (py "sec-fetch-dest", py "document");
    (py "referer", py "https://www.google.com/");
    (py "accept-encoding", py "gzip, deflate, br, zstd");
    (py "accept-language", py "en-US,en;q=0.9") ].

(** The [headers=] argument of the lambda. *)
Definition stealth_headers (request_headers : gmap str str) : gmap str str :=
  dict_unpack_then request_headers stealth_header_items.

(** [lambda route, request: route.continue_(headers={...})] *)
Definition stealth_headers_handler (request : Request) : route_action :=
  Continue (stealth_headers (headers request)).

(** [async def add_stealth_headers(page)]: the call builds the coroutine. *)
Definition add_stealth_headers {R} (page : Page R) : M (awaitable unit) :=
  mret (Coroutine (page_route page (py "**/*") stealth_headers_handler;; mret tt)).

(** ** Applying stealth *)

(** [config or StealthConfig()]: an instance of the dataclass is truthy. *)
Definition config_or_default (config : option StealthConfig) : StealthConfig :=
  match config with
  | Some c => c
  | None => StealthConfig_defaults
  end.

Definition END_MARKER : str := py "console.log(`end`);".

Section Stealth.

Variable SCRIPTS : gmap str str.

Definition stealth_sync (page : Page unit) (config : option StealthConfig) : M unit :=
  scripts ← lift (collect (enabled_scripts SCRIPTS (config_or_default config)));
  add_stealth_headers page;;
  let combined_script := str_join NL scripts in
  page_add_init_script page combined_script.

(** The body of [async def stealth_async]. *)
Definition stealth_async_body (page : Page (awaitable unit))
    (config : option StealthConfig) : M unit :=
  scripts ← lift (collect (enabled_scripts SCRIPTS (config_or_default config)));
  add_stealth_headers page;;
  let combined_script := str_join NL scripts ++ (NL ++ END_MARKER) in
  c ← page_add_init_script page combined_script;
  await c.

Definition stealth_async (page : Page (awaitable unit))
    (config : option StealthConfig) : M (awaitable unit) :=
  mret (Coroutine (stealth_async_body page config)).

End Stealth.

(** ** Vocabulary of the specification *)

(** The optional patches, named after their toggles. *)
Inductive toggle :=
| T_chrome_app
| T_chrome_csi
| T_chrome_load_times
| T_chrome_runtime
| T_iframe_content_window
| T_media_codecs
| T_navigator_languages
| T_navigator_permissions
| T_navigator_plugins
| T_navigator_user_agent
| T_navigator_vendor
| T_webdriver
| T_outerdimensions
| T_webgl_vendor.

#[global] Instance toggle_eq_dec : EqDecision toggle.
Proof. solve_decision. Defined.

Definition toggle_value (t : toggle) (self : StealthConfig) : bool :=
  match t with
  | T_chrome_app => chrome_app self
  | T_chrome_csi => chrome_csi self
  | T_chrome_load_times => chrome_load_times self
  | T_chrome_runtime => chrome_runtime self
  | T_iframe_content_window => iframe_content_window self
  | T_media_codecs => media_codecs self
  | T_navigator_languages => navigator_languages self
  | T_navigator_permissions => navigator_permissions self
  | T_navigator_plugins => navigator_plugins self
  | T_navigator_user_agent => navigator_user_agent self
  | T_navigator_vendor => navigator_vendor self
  | T_webdriver => webdriver self
  | T_outerdimensions => outerdimensions self
  | T_webgl_vendor => webgl_vendor self
  end.

(** The key of [SCRIPTS] a toggle guards. *)
Definition toggle_key (t : toggle) : str :=
  match t with
  | T_chrome_app => py "chrome_app"
  | T_chrome_csi => py "chrome_csi"
  | T_chrome_load_times => py "chrome_load_times"
  | T_chrome_runtime => py "chrome_runtime"
  | T_iframe_content_window => py "iframe_content_window"
  | T_media_codecs => py "media_codecs"
  | T_navigator_languages => py "navigator_languages"
  | T_navigator_permissions => py "navigator_permissions"
  | T_navigator_plugins => py "navigator_plugins"
  | T_navigator_user_agent => py "navigator_user_agent"
  | T_navigator_vendor => py "navigator_vendor"
  | T_webdriver => py "webdriver"
  | T_outerdimensions => py "outerdimensions"
  | T_webgl_vendor => py "webgl_vendor"
  end.

(** The fixed order of section 4.2. *)
Definition toggle_order : list toggle :=
  [ T_chrome_app; T_chrome_csi; T_chrome_load_times; T_chrome_runtime;
    T_iframe_content_window; T_media_codecs; T_navigator_languages;
    T_navigator_permissions; T_navigator_plugins; T_navigator_user_agent;
    T_navigator_vendor; T_webdriver; T_outerdimensions; T_webgl_vendor ].

(** The configuration with its toggles read from [f] and everything else
    kept. *)
Definition with_toggles (f : toggle -> bool) (self : StealthConfig) : StealthConfig := {|
  webdriver := f T_webdriver;
  webgl_vendor := f T_webgl_vendor;
  chrome_app := f T_chrome_app;
  chrome_csi := f T_chrome_csi;
  chrome_load_times := f T_chrome_load_times;
  chrome_runtime := f T_chrome_runtime;
  iframe_content_window := f T_iframe_content_window;
  media_codecs := f T_media_codecs;
  navigator_hardware_concurrency := navigator_hardware_concurrency self;
  navigator_languages := f T_navigator_languages;
  navigator_permissions := f T_navigator_permissions;
  navigator_plugins := f T_navigator_plugins;
  navigator_user_agent := f T_navigator_user_agent;
  navigator_vendor := f T_navigator_vendor;
  outerdimensions := f T_outerdimensions;
  vendor := vendor self;
  renderer := renderer self;
  nav_vendor := nav_vendor self;
  nav_user_agent := nav_user_agent self;
  nav_platform := nav_platform self;
  languages := languages self;
  runOnInsecureOrigins := runOnInsecureOrigins self
|}.

(** [self.t = b] *)
Definition set_toggle (t : toggle) (b : bool) (self : StealthConfig) : StealthConfig :=
  with_toggles (fun t' => if decide (t' = t) then b else toggle_value t' self) self.

(** [self.navigator_hardware_concurrency = n] *)
Definition set_navigator_hardware_concurrency (n : Z) (self : StealthConfig)
  : StealthConfig := {|
  webdriver := webdriver self;
  webgl_vendor := webgl_vendor self;
  chrome_app := chrome_app self;
  chrome_csi := chrome_csi self;
  chrome_load_times := chrome_load_times self;
  chrome_runtime := chrome_runtime self;
  iframe_content_window := iframe_content_window self;
  media_codecs := media_codecs self;
  navigator_hardware_concurrency := n;
  navigator_languages := navigator_languages self;
  navigator_permissions := navigator_permissions self;
  navigator_plugins := navigator_plugins self;
  navigator_user_agent := navigator_user_agent self;
  navigator_vendor := navigator_vendor self;
  outerdimensions := outerdimensions self;
  vendor := vendor self;
  renderer := renderer self;
  nav_vendor := nav_vendor self;
  nav_user_agent := nav_user_agent self;
  nav_platform := nav_platform self;
  languages := languages self;
  runOnInsecureOrigins := runOnInsecureOrigins self
|}.


(** The keys of the dict display of [SCRIPTS] with the file each is read
    from, in source order. *)
Definition patch_sources : list (str * str) :=
  [ (py "chrome_csi", py "chrome.csi.js");
    (py "chrome_app", py "chrome.app.js");
    (py "chrome_runtime", py "chrome.runtime.js");
    (py "chrome_load_times", py "chrome.load.times.js");
    (py "generate_magic_arrays", py "generate.magic.arrays.js");
    (py "iframe_content_window", py "iframe.contentWindow.js");
    (py "media_codecs", py "media.codecs.js");
    (py "navigator_vendor", py "navigator.vendor.js");
    (py "navigator_plugins", py "navigator.plugins.js");
    (py "navigator_permissions", py "navigator.permissions.js");
    (py "navigator_languages", py "navigator.languages.js");
    (py "navigator_user_agent", py "navigator.userAgent.js");
    (py "navigator_hardware_concurrency", py "navigator.hardwareConcurrency.js");
    (py "outerdimensions", py "window.outerdimensions.js");
    (py "utils", py "utils.js");
    (py "webdriver", py "navigator.webdriver.js");
    (py "webgl_vendor", py "webgl.vendor.js") ].

Definition patch_names : list str := patch_sources.*1.

(** A registry with an entry for every known patch name. *)
Definition complete (S : gmap str str) : Prop :=
  Forall (fun k => is_Some (S !! k)) patch_names.

(** The fragments one optional patch contributes. *)
Definition selected (S : gmap str str) (self : StealthConfig) (t : toggle) : list str :=
  if toggle_value t self then [S !!! toggle_key t] else [].

(** The options constant, first fragment of every sequence. *)
Definition opts_constant (self : StealthConfig) : str :=
  py "const opts = " ++ dumps (opts_dict self).

Definition quoted (s : string) : str := DQ ++ py s ++ DQ.

(** The options constant of [StealthConfig()], written out. *)
Definition opts_constant_defaults : str :=
  py "const opts = {"
  ++ quoted "webgl_vendor" ++ py ": " ++ quoted "Intel Inc." ++ py ", "
  ++ quoted "webgl_renderer" ++ py ": " ++ quoted "Intel Iris OpenGL Engine" ++ py ", "
  ++ quoted "navigator_vendor" ++ py ": " ++ quoted "Google Inc." ++ py ", "
  ++ quoted "navigator_platform" ++ py ": null, "
  ++ quoted "navigator_user_agent" ++ py ": null, "
  ++ quoted "languages" ++ py ": [" ++ quoted "en-US" ++ py ", " ++ quoted "en" ++ py "], "
  ++ quoted "runOnInsecureOrigins" ++ py ": null}".

(** The keys of a JSON object. *)
Definition json_keys (v : json) : list str :=
  match v with
  | JDict items => items.*1
  | _ => []
  end.

(** [t] occurs in [s]. *)
Definition occurs_in (t s : str) : Prop := exists a b, s = a ++ t ++ b.

(** Awaiting the result of a call to an [async def]. *)
Definition run_awaited {A} (call : M (awaitable A)) : M A := c ← call; await c.

(** The page a computation leaves behind. *)
Definition page_after {A} (m : M A) (page : PageState) : PageState := (m page).2.

(** The init scripts a computation registers on a page beyond those
    already there. *)
Definition newly_registered {A} (m : M A) (page : PageState) : list str :=
  drop (length (init_scripts page)) (init_scripts (page_after m page)).

(** *** Sample inputs *)

Definition sample_dir : str := py "/site-packages/playwright_stealth".

(** Every patch file present; each holds a one-line comment with its path. *)
Definition sample_fs (filename : str) : file :=
  if startswith filename (py "/site-packages/playwright_stealth/js/")
  then Text (py "// " ++ filename)
  else Absent.

Definition sample_SCRIPTS : gmap str str :=
  match SCRIPTS posixpath_join sample_dir sample_fs with
  | Ok d => d
  | Raise _ => ∅
  end.

(** The same directory without [utils.js]. *)
Definition sample_fs_without_utils (filename : str) : file :=
  if bool_decide (filename = py "/site-packages/playwright_stealth/js/utils.js")
  then Absent
  else sample_fs filename.

(** The same directory on a machine that also has [/etc/hostname]. *)
Definition sample_fs_with_hostname (filename : str) : file :=
  if bool_decide (filename = py "/etc/hostname")
  then Text (py "build-host")
  else sample_fs filename.

Definition fresh_page : PageState := {| init_scripts := []; routes := [] |}.

(** [StealthConfig(chrome_app=False)] *)
Definition config_without_chrome_app : StealthConfig :=
  set_toggle T_chrome_app false StealthConfig_defaults.

(** [StealthConfig(vendor="console.log(`end`);")] *)
Definition config_marker_vendor : StealthConfig := {|
  webdriver := true;
  webgl_vendor := true;
  chrome_app := true;
  chrome_csi := true;
  chrome_load_times := true;
  chrome_runtime := true;
  iframe_content_window := true;
  media_codecs := true;
  navigator_hardware_concurrency := 4;
  navigator_languages := true;
  navigator_permissions := true;
  navigator_plugins := true;
  navigator_user_agent := true;
  navigator_vendor := true;
  outerdimensions := true;
  vendor := py "console.log(`end`);";
  renderer := py "Intel Iris OpenGL Engine";
  nav_vendor := py "Google Inc.";
  nav_user_agent := None;
  nav_platform := None;
  languages := [py "en-US"; py "en"];
  runOnInsecureOrigins := None
|}.

(** *** The module global as process state *)





(** *** Vocabulary for the further properties *)

(** [[d[k] for k in ks]], evaluated from left to right. *)
Fixpoint getitems (d : gmap str str) (ks : list str) : res (list str) :=
  match ks with
  | [] => Ok []
  | k :: ks' => v ← getitem d k; vs ← getitems d ks'; Ok (v :: vs)
  end.

(** The toggles that are on, in the fixed order. *)
Definition enabled_toggles (self : StealthConfig) : list toggle :=
  filter (fun t => toggle_value t self = true) toggle_order.

(** The keys of [SCRIPTS] that [enabled_scripts] looks up for a
    configuration, in the order it looks them up. *)
Definition needed_keys (self : StealthConfig) : list str :=
  py "utils" :: py "generate_magic_arrays" :: (toggle_key <$> enabled_toggles self).

(** A run of guarded yields [if b: yield SCRIPTS[k]], as a list of
    guard and key. *)
Definition guarded_yields (S : gmap str str) (gs : list (bool * str)) : Gen unit :=
  foldr (fun (g : bool * str) rest => when g.1 (yield_item S g.2);; rest) (mret tt) gs.

Definition guarded_keys (gs : list (bool * str)) : list str :=
  gs ≫= (fun g : bool * str => if g.1 then [g.2] else []).

(** The guarded yields of [enabled_scripts]; the first two are
    unconditional. *)
Definition guards (self : StealthConfig) : list (bool * str) :=
  (true, py "utils") :: (true, py "generate_magic_arrays")
  :: ((fun t => (toggle_value t self, toggle_key t)) <$> toggle_order).

(** A printable ASCII character. *)
Definition printable (c : N) : Prop := 32 <= c <= 126.

#[global] Instance printable_dec (c : N) : Decision (printable c).
Proof. unfold printable. apply _. Defined.

(** The file [from_file] opens for a name. *)
Definition patch_path (os_path_join : str -> list str -> str) (module_dir name : str)
  : str :=
  os_path_join module_dir [py "js"; name].

(** ** Strings *)

Lemma startswith_spec (s t : str) :
  startswith s t = true <-> exists b, s = t ++ b.
Proof.
  revert s. induction t as [|c t IH]; intros s; simpl.
  - split; [intros _; by exists s | done].
  - destruct s as [|d s].
    + split; [done | intros [b Hb]; discriminate].
    + rewrite andb_true_iff, N.eqb_eq, IH. split.
      * intros [-> [b ->]]. by exists b.
      * intros [b Hb]. injection Hb as -> ->. split; [done | by exists b].
Qed.

Lemma str_in_spec (t s : str) : str_in t s = true <-> occurs_in t s.
Proof.
  induction s as [|d s IH]; simpl.
  - rewrite orb_false_r, startswith_spec. split.
    + intros [b Hb]. by exists [], b.
    + intros [a [b Hab]]. destruct a; [by exists b | discriminate].
  - rewrite orb_true_iff, startswith_spec, IH. split.
    + intros [[b Hb] | [a [b Hab]]].
      * by exists [], b.
      * exists (d :: a), b. by rewrite Hab.
    + intros [a [b Hab]]. destruct a as [|x a].
      * left. by exists b.
      * right. injection Hab as -> ->. by exists a, b.
Qed.

Lemma str_join_cons (sep x : str) (l : list str) :
  l ≠ [] -> str_join sep (x :: l) = x ++ sep ++ str_join sep l.
Proof. by destruct l. Qed.

Lemma str_join_app (sep : str) (pre l : list str) :
  l ≠ [] -> str_join sep (pre ++ l) = concat ((.++ sep) <$> pre) ++ str_join sep l.
Proof.
  intros Hl. induction pre as [|x pre IH]; [done|].
  change ((x :: pre) ++ l) with (x :: (pre ++ l)).
  rewrite str_join_cons, IH; [|by destruct pre, l].
  simpl. by rewrite <- !(assoc_L (++)).
Qed.

(** A string is cut at the first separator in one way only. *)
Lemma first_sep_unique (c : N) (a b x y : str) :
  c ∉ a -> c ∉ b -> a ++ c :: x = b ++ c :: y -> a = b /\ x = y.
Proof.
  revert b. induction a as [|d a IH]; intros [|e b] Ha Hb Heq; simpl in Heq.
  - by injection Heq.
  - injection Heq as -> _. exfalso. apply Hb. left.
  - injection Heq as -> _. exfalso. apply Ha. left.
  - injection Heq as -> Heq.
    destruct (IH b) as [-> ->]; [| |done|done].
    + intros H. apply Ha. by right.
    + intros H. apply Hb. by right.
Qed.

Lemma prefix_before_sep (c : N) (t b x y : str) :
  c ∉ t -> t ++ b = x ++ c :: y -> exists r, x = t ++ r.
Proof.
  revert x. induction t as [|e t IH]; intros x Ht Heq; [by exists x|].
  destruct x as [|d x]; simpl in Heq.
  - injection Heq as -> _. exfalso. apply Ht. left.
  - injection Heq as -> Heq.
    destruct (IH x) as [r ->]; [|done|by exists r].
    intros H. apply Ht. by right.
Qed.

Lemma occurs_in_around_sep (c : N) (t x y : str) :
  t ≠ [] -> c ∉ t ->
  occurs_in t (x ++ c :: y) <-> occurs_in t x \/ occurs_in t y.
Proof.
  intros Hne Hc. split.
  - intros [a [b Hab]]. revert a Hab.
    induction x as [|d x IH]; intros a Hab.
    + destruct a as [|e a]; simpl in Hab.
      * destruct t as [|e t]; [done|]. injection Hab as -> _.
        exfalso. apply Hc. left.
      * injection Hab as _ ->. right. by exists a, b.
    + destruct a as [|e a]; simpl in Hab.
      * symmetry in Hab.
        destruct (prefix_before_sep c t b (d :: x) y Hc Hab) as [r ->].
        left. by exists [], r.
      * injection Hab as _ Hab. destruct (IH a Hab) as [[a' [b' ->]] | Hy].
        -- left. by exists (d :: a'), b'.
        -- by right.
  - intros [[a [b ->]] | [a [b ->]]].
    + exists a, (b ++ c :: y). by rewrite <- !(assoc_L (++)).
    + exists (x ++ c :: a), b. by rewrite <- !(assoc_L (++)).
Qed.

(** A text without a line break occurs in the join of some fragments exactly
    when it occurs in one of them. *)
Lemma occurs_in_str_join (t : str) (l : list str) :
  t ≠ [] -> 10 ∉ t ->
  occurs_in t (str_join NL l) <-> Exists (occurs_in t) l.
Proof.
  intros Hne Hnl. induction l as [|x l IH].
  - simpl. rewrite Exists_nil. split; [|done].
    intros [a [b Hab]]. destruct a, t; done.
  - rewrite Exists_cons. destruct l as [|x' l].
    + simpl. rewrite Exists_nil. tauto.
    + rewrite str_join_cons by done.
      change (x ++ NL ++ str_join NL (x' :: l))
        with (x ++ 10 :: str_join NL (x' :: l)).
      by rewrite occurs_in_around_sep, IH.
Qed.

(** ** Loading the registry *)

Lemma dict_display_raise (items : list (str * res str)) (d : gmap str str) :
  Exists (fun kv => exists e, kv.2 = Raise e) items ->
  exists e, dict_display items d = Raise e.
Proof.
  intros Hex. revert d. induction Hex as [[k r] items [e He] | [k r] items _ IH]; intros d.
  - simpl in He. subst r. by exists e.
  - simpl. destruct r as [v|e]; [apply IH | by exists e].
Qed.

Lemma dict_display_outside (items : list (str * res str)) (d S : gmap str str) (k : str) :
  dict_display items d = Ok S -> k ∉ items.*1 -> S !! k = d !! k.
Proof.
  revert d. induction items as [|[k' r] items IH]; intros d Hd Hk; simpl in *.
  - by injection Hd as ->.
  - destruct r as [v|e]; [|done]. simpl in Hd.
    apply not_elem_of_cons in Hk as [Hne Hk].
    rewrite (IH _ Hd Hk). by apply lookup_insert_ne.
Qed.

Lemma dict_display_entry (items : list (str * res str)) (d S : gmap str str)
    (k : str) (r : res str) :
  dict_display items d = Ok S -> NoDup items.*1 -> (k, r) ∈ items ->
  exists v, r = Ok v /\ S !! k = Some v.
Proof.
  revert d. induction items as [|[k' r'] items IH]; intros d Hd Hnd Hin; simpl in *.
  - by apply elem_of_nil in Hin.
  - apply NoDup_cons in Hnd as [Hk' Hnd].
    destruct r' as [v|e]; [|done]. simpl in Hd.
    apply elem_of_cons in Hin as [Heq | Hin].
    + injection Heq as -> ->. exists v. split; [done|].
      rewrite (dict_display_outside _ _ _ _ Hd Hk'). apply lookup_insert_eq.
    + by apply (IH _ Hd Hnd Hin).
Qed.

Lemma dict_display_dom (items : list (str * res str)) (d S : gmap str str) :
  dict_display items d = Ok S -> dom S = dom d ∪ list_to_set items.*1.
Proof.
  revert d. induction items as [|[k r] items IH]; intros d Hd; simpl in *.
  - injection Hd as ->. by rewrite (right_id_L ∅ (∪)).
  - destruct r as [v|e]; [|done]. simpl in Hd.
    rewrite (IH _ Hd), dom_insert_L.
    by rewrite (comm_L (∪) {[k]} (dom d)), <- (assoc_L (∪)).
Qed.

Lemma SCRIPTS_as_table
    (os_path_join : str -> list str -> str) (module_dir : str) (fs : str -> file) :
  SCRIPTS os_path_join module_dir fs
  = dict_display ((fun kf => (kf.1, from_file os_path_join module_dir fs kf.2)) <$> patch_sources) ∅.
Proof. reflexivity. Qed.

Lemma table_keys
    (os_path_join : str -> list str -> str) (module_dir : str) (fs : str -> file) :
  ((fun kf : str * str => (kf.1, from_file os_path_join module_dir fs kf.2)) <$> patch_sources).*1
  = patch_names.
Proof. unfold patch_names. rewrite <- list_fmap_compose. by apply list_fmap_ext. Qed.

Lemma patch_names_NoDup : NoDup patch_names.
Proof. apply (bool_decide_unpack _). by vm_compute. Qed.

Lemma from_file_Ok
    (os_path_join : str -> list str -> str) (module_dir : str) (fs : str -> file) (name text : str) :
  from_file os_path_join module_dir fs name = Ok text
  <-> fs (os_path_join module_dir [py "js"; name]) = Text text.
Proof.
  unfold from_file, open_read.
  destruct (fs _); split; intros H; try done; by injection H as ->.
Qed.

Lemma SCRIPTS_entry
    (os_path_join : str -> list str -> str) (module_dir : str) (fs : str -> file) (S : gmap str str) (k f : str) :
  SCRIPTS os_path_join module_dir fs = Ok S -> (k, f) ∈ patch_sources ->
  exists text,
    fs (os_path_join module_dir [py "js"; f]) = Text text /\ S !! k = Some text.
Proof.
  rewrite SCRIPTS_as_table. intros HS Hin.
  destruct (dict_display_entry _ _ _ k (from_file os_path_join module_dir fs f) HS) as [v [Hv Hk]].
  - rewrite table_keys. apply patch_names_NoDup.
  - apply list_elem_of_fmap. by exists (k, f).
  - exists v. by rewrite <- from_file_Ok.
Qed.

Lemma SCRIPTS_complete
    (os_path_join : str -> list str -> str) (module_dir : str) (fs : str -> file) (S : gmap str str) :
  SCRIPTS os_path_join module_dir fs = Ok S -> complete S.
Proof.
  intros HS. apply Forall_forall. intros k Hk.
  apply list_elem_of_fmap in Hk as [[k' f] [-> Hin]].
  destruct (SCRIPTS_entry _ _ _ _ _ _ HS Hin) as [text [_ Hk]]. by exists text.
Qed.

Lemma sample_SCRIPTS_loaded : SCRIPTS posixpath_join sample_dir sample_fs = Ok sample_SCRIPTS.
Proof.
  unfold sample_SCRIPTS.
  assert (match SCRIPTS posixpath_join sample_dir sample_fs with Ok _ => true | Raise _ => false end
          = true) as H by (by vm_compute).
  by destruct (SCRIPTS posixpath_join sample_dir sample_fs).
Qed.

(** ** The fragment sequence *)

Lemma getitem_complete (S : gmap str str) (k : str) :
  complete S -> k ∈ patch_names -> getitem S k = Ok (S !!! k).
Proof.
  intros HS Hk. unfold getitem.
  destruct (proj1 (Forall_forall _ _) HS k Hk) as [v Hv].
  by rewrite (lookup_total_correct _ _ _ Hv), Hv.
Qed.

Lemma yield_item_complete (S : gmap str str) (k : str) :
  complete S -> k ∈ patch_names -> yield_item S k = Ok (tt, [S !!! k]).
Proof. intros HS Hk. unfold yield_item. by rewrite getitem_complete. Qed.

Lemma toggle_key_known (t : toggle) : toggle_key t ∈ patch_names.
Proof. apply (bool_decide_unpack _). by destruct t; vm_compute. Qed.

Lemma when_yield_item (S : gmap str str) (self : StealthConfig) (t : toggle) :
  complete S ->
  when (toggle_value t self) (yield_item S (toggle_key t)) = Ok (tt, selected S self t).
Proof.
  intros HS. unfold when, selected.
  destruct (toggle_value t self); [|done].
  apply yield_item_complete; [done | apply toggle_key_known].
Qed.

(** Replaces the guarded [yield] of toggle [t] in the goal by its outcome. *)
Local Ltac rewrite_when t :=
  match goal with
  | HS : complete ?S |- context [when _ (yield_item ?S _)] =>
      let H := fresh in
      match goal with
      | |- context [opts_dict ?self] =>
          pose proof (when_yield_item S self t HS) as H;
          cbn [toggle_value toggle_key] in H; rewrite H; clear H
      end
  end.

(** What the generator yields, fragment by fragment. *)
Lemma enabled_scripts_complete (S : gmap str str) (self : StealthConfig) :
  complete S ->
  collect (enabled_scripts S self)
  = Ok (opts_constant self :: S !!! py "utils" :: S !!! py "generate_magic_arrays"
          :: concat (selected S self <$> toggle_order)).
Proof.
  intros HS. unfold enabled_scripts.
  rewrite_when T_chrome_app. rewrite_when T_chrome_csi.
  rewrite_when T_chrome_load_times. rewrite_when T_chrome_runtime.
  rewrite_when T_iframe_content_window. rewrite_when T_media_codecs.
  rewrite_when T_navigator_languages. rewrite_when T_navigator_permissions.
  rewrite_when T_navigator_plugins. rewrite_when T_navigator_user_agent.
  rewrite_when T_navigator_vendor. rewrite_when T_webdriver.
  rewrite_when T_outerdimensions. rewrite_when T_webgl_vendor.
  rewrite !(yield_item_complete S _ HS)
    by (apply (bool_decide_unpack _); by vm_compute).
  simpl. by rewrite (right_id_L [] (++)).
Qed.

Lemma toggle_order_NoDup : NoDup toggle_order.
Proof. apply (bool_decide_unpack _). by vm_compute. Qed.

Lemma toggle_order_all (t : toggle) : t ∈ toggle_order.
Proof. apply (bool_decide_unpack _). by destruct t; vm_compute. Qed.

Lemma toggle_value_with_toggles (f : toggle -> bool) (self : StealthConfig) (t : toggle) :
  toggle_value t (with_toggles f self) = f t.
Proof. by destruct t. Qed.

Lemma selected_set_toggle (S : gmap str str) (self : StealthConfig) (t t' : toggle) (b : bool) :
  t' ≠ t -> selected S (set_toggle t b self) t' = selected S self t'.
Proof.
  intros Hne. unfold selected, set_toggle.
  rewrite toggle_value_with_toggles. by case_decide.
Qed.

Lemma selected_disabled (S : gmap str str) (self : StealthConfig) (t : toggle) :
  selected S (set_toggle t false self) t = [].
Proof.
  unfold selected, set_toggle.
  rewrite toggle_value_with_toggles. by case_decide.
Qed.

Lemma elem_of_concat (x : str) (ls : list (list str)) :
  x ∈ concat ls <-> exists l, x ∈ l /\ l ∈ ls.
Proof.
  induction ls as [|l ls IH]; simpl.
  - split; [by intros ?%elem_of_nil | by intros [l [_ ?%elem_of_nil]]].
  - rewrite elem_of_app, IH. split.
    + intros [Hx | [l' [Hx Hl']]].
      * exists l. split; [done | left].
      * exists l'. split; [done | by right].
    + intros [l' [Hx Hl']]. apply elem_of_cons in Hl' as [-> | Hl'].
      * by left.
      * right. by exists l'.
Qed.

Lemma selected_elem (S : gmap str str) (self : StealthConfig) (x : str) :
  x ∈ concat (selected S self <$> toggle_order) ->
  exists t, x = S !!! toggle_key t.
Proof.
  intros Hx. apply elem_of_concat in Hx as [l [Hx Hl]].
  apply list_elem_of_fmap in Hl as [t [-> _]]. exists t.
  unfold selected in Hx. destruct (toggle_value t self).
  - by apply list_elem_of_singleton in Hx.
  - by apply elem_of_nil in Hx.
Qed.


(** ** Applying stealth: what a call leaves on the page *)

Lemma stealth_sync_run (S : gmap str str) (config : option StealthConfig)
    (page : PageState) :
  stealth_sync S SyncPage config page
  = match collect (enabled_scripts S (config_or_default config)) with
    | Ok scripts =>
        (Ok tt, {| init_scripts := init_scripts page ++ [str_join NL scripts];
                   routes := routes page |})
    | Raise e => (Raise e, page)
    end.
Proof.
  unfold stealth_sync, mbind, M_bind, lift.
  by destruct (collect (enabled_scripts S (config_or_default config))).
Qed.

Lemma stealth_async_run (S : gmap str str) (config : option StealthConfig)
    (page : PageState) :
  run_awaited (stealth_async S AsyncPage config) page
  = match collect (enabled_scripts S (config_or_default config)) with
    | Ok scripts =>
        (Ok tt, {| init_scripts :=
                     init_scripts page ++ [str_join NL scripts ++ NL ++ END_MARKER];
                   routes := routes page |})
    | Raise e => (Raise e, page)
    end.
Proof.
  unfold run_awaited, stealth_async, stealth_async_body, mbind, M_bind, lift. simpl.
  by destruct (collect (enabled_scripts S (config_or_default config))).
Qed.

(** The body of [add_stealth_headers] does register the rule on a
    synchronous page once something awaits it. *)
Lemma add_stealth_headers_awaited (page : PageState) :
  page_after (run_awaited (add_stealth_headers SyncPage)) page
  = {| init_scripts := init_scripts page;
       routes := routes page
                 ++ [{| url := py "**/*"; handler := stealth_headers_handler |}] |}.
Proof. reflexivity. Qed.

(** ** The claims *)

(** C1.  Once the module has loaded its registry, the fragment sequence of the
    default configuration is the options constant, then the [utils] patch,
    then the [generate_magic_arrays] patch, then the fourteen optional
    patches in the fixed order chrome_app, chrome_csi, chrome_load_times,
    chrome_runtime, iframe_content_window, media_codecs, navigator_languages,
    navigator_permissions, navigator_plugins, navigator_user_agent,
    navigator_vendor, webdriver, outerdimensions, webgl_vendor, all of them
    present and nothing else. *)
Theorem C1_default_sequence
    (os_path_join : str -> list str -> str) (module_dir : str) (fs : str -> file) (S : gmap str str) :
  SCRIPTS os_path_join module_dir fs = Ok S ->
  complete S
  /\ collect (enabled_scripts S StealthConfig_defaults)
     = Ok [ opts_constant_defaults;
            S !!! py "utils";
            S !!! py "generate_magic_arrays";
            S !!! py "chrome_app";
            S !!! py "chrome_csi";
            S !!! py "chrome_load_times";
            S !!! py "chrome_runtime";
            S !!! py "iframe_content_window";
            S !!! py "media_codecs";
            S !!! py "navigator_languages";
            S !!! py "navigator_permissions";
            S !!! py "navigator_plugins";
            S !!! py "navigator_user_agent";
            S !!! py "navigator_vendor";
            S !!! py "webdriver";
            S !!! py "outerdimensions";
            S !!! py "webgl_vendor" ].
Proof.
  intros HS. pose proof (SCRIPTS_complete _ _ _ _ HS) as Hc. split; [done|].
  rewrite (enabled_scripts_complete _ _ Hc).
  assert (opts_constant StealthConfig_defaults = opts_constant_defaults) as ->
    by (by vm_compute).
  reflexivity.
Qed.

Lemma C1_default_sequence_witness :
  complete sample_SCRIPTS
  /\ collect (enabled_scripts sample_SCRIPTS StealthConfig_defaults)
     = Ok [ opts_constant_defaults;
            sample_SCRIPTS !!! py "utils";
            sample_SCRIPTS !!! py "generate_magic_arrays";
            sample_SCRIPTS !!! py "chrome_app";
            sample_SCRIPTS !!! py "chrome_csi";
            sample_SCRIPTS !!! py "chrome_load_times";
            sample_SCRIPTS !!! py "chrome_runtime";
            sample_SCRIPTS !!! py "iframe_content_window";
            sample_SCRIPTS !!! py "media_codecs";
            sample_SCRIPTS !!! py "navigator_languages";
            sample_SCRIPTS !!! py "navigator_permissions";
            sample_SCRIPTS !!! py "navigator_plugins";
            sample_SCRIPTS !!! py "navigator_user_agent";
            sample_SCRIPTS !!! py "navigator_vendor";
            sample_SCRIPTS !!! py "webdriver";
            sample_SCRIPTS !!! py "outerdimensions";
            sample_SCRIPTS !!! py "webgl_vendor" ].
Proof.
  apply (C1_default_sequence posixpath_join sample_dir sample_fs sample_SCRIPTS).
  unfold sample_SCRIPTS.
  assert (match SCRIPTS posixpath_join sample_dir sample_fs with Ok _ => true | Raise _ => false end
          = true) as H by (vm_compute; reflexivity).
  destruct (SCRIPTS posixpath_join sample_dir sample_fs); [reflexivity | discriminate].
Defined.

(** C4.  With the registry loaded, switching off one optional toggle, every
    other option kept, gives the sequence of before with that toggle's
    fragment taken out at its place: what comes before it and what comes
    after it are unchanged, in content and in order.  (A toggle that was
    already off contributes no fragment, and nothing changes.) *)
Theorem C4_disable_one_toggle
    (os_path_join : str -> list str -> str) (module_dir : str) (fs : str -> file) (S : gmap str str)
    (self : StealthConfig) (t : toggle) :
  SCRIPTS os_path_join module_dir fs = Ok S ->
  exists before after : list str,
    collect (enabled_scripts S self)
    = Ok (before
            ++ (if toggle_value t self then [S !!! toggle_key t] else [])
            ++ after)
    /\ collect (enabled_scripts S (set_toggle t false self)) = Ok (before ++ after).
Proof.
  intros HS. pose proof (SCRIPTS_complete _ _ _ _ HS) as Hc.
  rewrite !(enabled_scripts_complete _ _ Hc).
  destruct (list_elem_of_split _ _ (toggle_order_all t)) as (l1 & l2 & Hsplit).
  pose proof toggle_order_NoDup as Hnd. rewrite Hsplit in Hnd |- *.
  apply NoDup_app in Hnd as (_ & Hl1 & [Hl2 _]%NoDup_cons).
  exists (opts_constant self :: S !!! py "utils" :: S !!! py "generate_magic_arrays"
            :: concat (selected S self <$> l1)),
         (concat (selected S self <$> l2)).
  rewrite !fmap_app, !fmap_cons, !concat_app. simpl.
  rewrite selected_disabled. split; [done|].
  assert (selected S (set_toggle t false self) <$> l1 = selected S self <$> l1) as ->.
  { apply Forall_fmap_ext, Forall_forall. intros t' Ht'.
    apply selected_set_toggle. intros ->. by apply (Hl1 t), elem_of_cons; [|left]. }
  assert (selected S (set_toggle t false self) <$> l2 = selected S self <$> l2) as ->.
  { apply Forall_fmap_ext, Forall_forall. intros t' Ht'.
    apply selected_set_toggle. by intros ->. }
  reflexivity.
Qed.

Lemma C4_disable_one_toggle_witness :
  exists before after : list str,
    collect (enabled_scripts sample_SCRIPTS StealthConfig_defaults)
    = Ok (before ++ [sample_SCRIPTS !!! py "chrome_app"] ++ after)
    /\ collect (enabled_scripts sample_SCRIPTS config_without_chrome_app)
       = Ok (before ++ after).
Proof.
  apply (C4_disable_one_toggle posixpath_join sample_dir sample_fs sample_SCRIPTS
           StealthConfig_defaults T_chrome_app).
  unfold sample_SCRIPTS.
  assert (match SCRIPTS posixpath_join sample_dir sample_fs with Ok _ => true | Raise _ => false end
          = true) as H by (vm_compute; reflexivity).
  destruct (SCRIPTS posixpath_join sample_dir sample_fs); [reflexivity | discriminate].
Defined.

Lemma getitem_insert_other (S : gmap str str) (k k' text : str) :
  k' ≠ k -> getitem (<[k' := text]> S) k = getitem S k.
Proof. intros Hne. unfold getitem. by rewrite lookup_insert_ne. Qed.

Lemma getitem_delete_other (S : gmap str str) (k k' : str) :
  k' ≠ k -> getitem (delete k' S) k = getitem S k.
Proof. intros Hne. unfold getitem. by rewrite lookup_delete_ne. Qed.

(** C10.  [navigator_hardware_concurrency] is dead.  (1) Changing the option
    alone changes neither the sequence nor the options constant, whose keys
    do not include it.  (2) The generator never reads the registry entry of
    that name: replacing or removing the entry changes no sequence.  (3) With
    the registry loaded, if the text of that entry differs from the texts of
    the other patches and does not begin like the options constant, it is not
    a member of any configuration's sequence. *)
Theorem C10_hardware_concurrency_is_dead :
  (forall (S : gmap str str) (self : StealthConfig) (n : Z),
      enabled_scripts S (set_navigator_hardware_concurrency n self)
      = enabled_scripts S self
      /\ opts_constant (set_navigator_hardware_concurrency n self) = opts_constant self
      /\ py "navigator_hardware_concurrency" ∉ json_keys (opts_dict self))
  /\ (forall (S : gmap str str) (self : StealthConfig) (text : str),
         enabled_scripts (<[py "navigator_hardware_concurrency" := text]> S) self
         = enabled_scripts S self
         /\ enabled_scripts (delete (py "navigator_hardware_concurrency") S) self
            = enabled_scripts S self)
  /\ (forall (os_path_join : str -> list str -> str) (module_dir : str) (fs : str -> file) (S : gmap str str)
        (self : StealthConfig) (fragments : list str),
         SCRIPTS os_path_join module_dir fs = Ok S ->
         (forall k, k ∈ patch_names -> k ≠ py "navigator_hardware_concurrency" ->
                    S !!! k ≠ S !!! py "navigator_hardware_concurrency") ->
         startswith (S !!! py "navigator_hardware_concurrency") (py "const opts = ")
         = false ->
         collect (enabled_scripts S self) = Ok fragments ->
         S !!! py "navigator_hardware_concurrency" ∉ fragments).
Proof.
  split; [|split].
  - intros S self n. split; [done|]. split; [done|].
    apply (bool_decide_unpack _). by vm_compute.
  - intros S self text. unfold enabled_scripts, yield_item. split.
    + by rewrite !getitem_insert_other by (by vm_compute).
    + by rewrite !getitem_delete_other by (by vm_compute).
  - intros os_path_join module_dir fs S self fragments HS Hdistinct Hstart Hcollect Hin.
    pose proof (SCRIPTS_complete _ _ _ _ HS) as Hc.
    rewrite (enabled_scripts_complete _ _ Hc) in Hcollect.
    injection Hcollect as <-.
    assert (forall k, k ∈ patch_names -> k ≠ py "navigator_hardware_concurrency" ->
                      S !!! py "navigator_hardware_concurrency" ≠ S !!! k) as Hd.
    { intros k Hk Hne Heq. by apply (Hdistinct k Hk Hne). }
    apply elem_of_cons in Hin as [Hin | Hin].
    { rewrite Hin in Hstart. unfold opts_constant in Hstart.
      assert (startswith (py "const opts = " ++ dumps (opts_dict self))
                (py "const opts = ") = true) as Htrue
        by (apply startswith_spec; by eexists).
      by rewrite Htrue in Hstart. }
    apply elem_of_cons in Hin as [Hin | Hin].
    { revert Hin. apply Hd; [apply (bool_decide_unpack _)|]; by vm_compute. }
    apply elem_of_cons in Hin as [Hin | Hin].
    { revert Hin. apply Hd; [apply (bool_decide_unpack _)|]; by vm_compute. }
    apply selected_elem in Hin as [t Hin].
    revert Hin. apply Hd; [apply toggle_key_known | by destruct t; vm_compute].
Qed.

Lemma C10_hardware_concurrency_is_dead_witness :
  exists fragments : list str,
    collect (enabled_scripts sample_SCRIPTS StealthConfig_defaults) = Ok fragments
    /\ sample_SCRIPTS !!! py "navigator_hardware_concurrency" ∉ fragments.
Proof.
  assert (SCRIPTS posixpath_join sample_dir sample_fs = Ok sample_SCRIPTS) as Hload.
  { unfold sample_SCRIPTS.
    assert (match SCRIPTS posixpath_join sample_dir sample_fs with Ok _ => true | Raise _ => false end
            = true) as H by (vm_compute; reflexivity).
    destruct (SCRIPTS posixpath_join sample_dir sample_fs); [reflexivity | discriminate]. }
  eexists. split.
  - apply enabled_scripts_complete, (SCRIPTS_complete posixpath_join sample_dir sample_fs), Hload.
  - apply (proj2 (proj2 C10_hardware_concurrency_is_dead)
             posixpath_join sample_dir sample_fs sample_SCRIPTS StealthConfig_defaults _ Hload).
    + apply (proj1 (Forall_forall
                 (fun k => k ≠ py "navigator_hardware_concurrency" ->
                           sample_SCRIPTS !!! k
                           ≠ sample_SCRIPTS !!! py "navigator_hardware_concurrency")
                 patch_names)).
      apply (bool_decide_unpack _). vm_compute. exact I.
    + vm_compute. reflexivity.
    + apply enabled_scripts_complete, (SCRIPTS_complete posixpath_join sample_dir sample_fs), Hload.
Defined.

(** C2.  The code does not do what the claim says.  [add_stealth_headers]
    is an [async def] and both [stealth_sync] and [stealth_async] call it
    without awaiting it, so its body, the [page.route] call, never runs:
    after either operation the page has exactly the interception rules it
    had before, for every registry, configuration and page. *)
Theorem C2_route_never_installed (S : gmap str str) (config : option StealthConfig)
    (page : PageState) :
  routes (page_after (stealth_sync S SyncPage config) page) = routes page
  /\ routes (page_after (run_awaited (stealth_async S AsyncPage config)) page)
     = routes page.
Proof.
  unfold page_after. rewrite stealth_sync_run, stealth_async_run.
  by destruct (collect (enabled_scripts S (config_or_default config))).
Qed.

Lemma M_seq_run {A B} (m1 : M A) (m2 : M B) (page : PageState) :
  (m1;; m2) page
  = match m1 page with
    | (Ok _, page') => m2 page'
    | (Raise e, page') => (Raise e, page')
    end.
Proof. unfold mbind, M_bind. by destruct (m1 page) as [[a|e] page']. Qed.

(** C9.  With the registry loaded, applying stealth twice to a page, with
    any two configurations, leaves both composed scripts registered on it,
    after those already there and in the order of the calls; the second
    registration replaces nothing.  The same holds for the asynchronous
    operation. *)
Theorem C9_second_application_appends
    (os_path_join : str -> list str -> str) (module_dir : str) (fs : str -> file)
    (S : gmap str str) (config1 config2 : option StealthConfig) (page : PageState) :
  SCRIPTS os_path_join module_dir fs = Ok S ->
  exists fragments1 fragments2 : list str,
    collect (enabled_scripts S (config_or_default config1)) = Ok fragments1
    /\ collect (enabled_scripts S (config_or_default config2)) = Ok fragments2
    /\ init_scripts
         (page_after (stealth_sync S SyncPage config1;; stealth_sync S SyncPage config2)
            page)
       = init_scripts page ++ [str_join NL fragments1; str_join NL fragments2]
    /\ init_scripts
         (page_after (run_awaited (stealth_async S AsyncPage config1);;
                      run_awaited (stealth_async S AsyncPage config2)) page)
       = init_scripts page
         ++ [str_join NL fragments1 ++ NL ++ END_MARKER;
             str_join NL fragments2 ++ NL ++ END_MARKER].
Proof.
  intros HS. pose proof (SCRIPTS_complete _ _ _ _ HS) as Hc.
  eexists _, _. split; [by apply enabled_scripts_complete|].
  split; [by apply enabled_scripts_complete|].
  unfold page_after.
  rewrite !M_seq_run, !stealth_sync_run, !stealth_async_run.
  rewrite !(enabled_scripts_complete _ _ Hc).
  rewrite !stealth_sync_run, !stealth_async_run.
  rewrite !(enabled_scripts_complete _ _ Hc). cbn [init_scripts snd].
  by rewrite <- !(assoc_L (++) (init_scripts page)).
Qed.

Lemma C9_second_application_appends_witness :
  exists fragments1 fragments2 : list str,
    collect (enabled_scripts sample_SCRIPTS StealthConfig_defaults) = Ok fragments1
    /\ collect (enabled_scripts sample_SCRIPTS config_without_chrome_app)
       = Ok fragments2
    /\ init_scripts
         (page_after (stealth_sync sample_SCRIPTS SyncPage None;;
                      stealth_sync sample_SCRIPTS SyncPage
                        (Some config_without_chrome_app)) fresh_page)
       = [] ++ [str_join NL fragments1; str_join NL fragments2]
    /\ init_scripts
         (page_after (run_awaited (stealth_async sample_SCRIPTS AsyncPage None);;
                      run_awaited (stealth_async sample_SCRIPTS AsyncPage
                                     (Some config_without_chrome_app))) fresh_page)
       = []
         ++ [str_join NL fragments1 ++ NL ++ END_MARKER;
             str_join NL fragments2 ++ NL ++ END_MARKER].
Proof.
  apply (C9_second_application_appends posixpath_join sample_dir sample_fs sample_SCRIPTS
           None (Some config_without_chrome_app) fresh_page).
  unfold sample_SCRIPTS.
  assert (match SCRIPTS posixpath_join sample_dir sample_fs with Ok _ => true | Raise _ => false end
          = true) as H by (vm_compute; reflexivity).
  destruct (SCRIPTS posixpath_join sample_dir sample_fs); [reflexivity | discriminate].
Defined.

Lemma END_MARKER_one_line : 10 ∉ END_MARKER.
Proof. apply (bool_decide_unpack _). by vm_compute. Qed.

(** C6, as stated, fails.  For [StealthConfig(vendor="console.log(`end`);")]
    the options constant quotes the vendor string, so the script that
    [stealth_sync] registers contains the marker statement. *)
Lemma C6_sync_script_contains_marker :
  exists script : str,
    init_scripts
      (page_after (stealth_sync sample_SCRIPTS SyncPage (Some config_marker_vendor))
         fresh_page)
    = [script]
    /\ str_in END_MARKER script = true.
Proof.
  eexists. split.
  - unfold page_after. rewrite stealth_sync_run.
    rewrite (enabled_scripts_complete sample_SCRIPTS)
      by apply (SCRIPTS_complete posixpath_join sample_dir sample_fs), sample_SCRIPTS_loaded.
    reflexivity.
  - apply str_in_spec, occurs_in_str_join; [done | apply END_MARKER_one_line |].
    apply Exists_cons_hd, str_in_spec. by vm_compute.
Qed.

(** C6, amended.  With the registry loaded, for every configuration the
    script registered by the asynchronous operation is the script registered
    by the synchronous one followed by a line break and the marker statement
    [console.log(`end`);], and the synchronous script is the bare join of the
    fragments: it contains the marker statement exactly when one of its
    fragments (the options constant or an enabled patch text) contains it. *)
Theorem C6_async_is_sync_plus_marker
    (os_path_join : str -> list str -> str) (module_dir : str) (fs : str -> file)
    (S : gmap str str) (config : option StealthConfig) (page : PageState) :
  SCRIPTS os_path_join module_dir fs = Ok S ->
  exists (fragments : list str) (sync_script : str),
    collect (enabled_scripts S (config_or_default config)) = Ok fragments
    /\ sync_script = str_join NL fragments
    /\ init_scripts (page_after (stealth_sync S SyncPage config) page)
       = init_scripts page ++ [sync_script]
    /\ init_scripts (page_after (run_awaited (stealth_async S AsyncPage config)) page)
       = init_scripts page ++ [sync_script ++ NL ++ END_MARKER]
    /\ (str_in END_MARKER sync_script = true
        <-> exists fragment, fragment ∈ fragments /\ str_in END_MARKER fragment = true).
Proof.
  intros HS. pose proof (SCRIPTS_complete _ _ _ _ HS) as Hc.
  eexists _, _. split; [by apply enabled_scripts_complete|].
  split; [reflexivity|]. unfold page_after.
  rewrite stealth_sync_run, stealth_async_run, !(enabled_scripts_complete _ _ Hc).
  split; [done|]. split; [done|].
  rewrite str_in_spec, occurs_in_str_join, Exists_exists;
    [|done|apply END_MARKER_one_line].
  split; intros [fragment [Hin Hoccurs]]; exists fragment; by rewrite str_in_spec in *.
Qed.

Lemma C6_async_is_sync_plus_marker_witness :
  exists (fragments : list str) (sync_script : str),
    collect (enabled_scripts sample_SCRIPTS StealthConfig_defaults) = Ok fragments
    /\ sync_script = str_join NL fragments
    /\ init_scripts (page_after (stealth_sync sample_SCRIPTS SyncPage None) fresh_page)
       = [] ++ [sync_script]
    /\ init_scripts
         (page_after (run_awaited (stealth_async sample_SCRIPTS AsyncPage None))
            fresh_page)
       = [] ++ [sync_script ++ NL ++ END_MARKER]
    /\ (str_in END_MARKER sync_script = true
        <-> exists fragment, fragment ∈ fragments /\ str_in END_MARKER fragment = true).
Proof.
  apply (C6_async_is_sync_plus_marker posixpath_join sample_dir sample_fs sample_SCRIPTS None
           fresh_page).
  unfold sample_SCRIPTS.
  assert (match SCRIPTS posixpath_join sample_dir sample_fs with Ok _ => true | Raise _ => false end
          = true) as H by (vm_compute; reflexivity).
  destruct (SCRIPTS posixpath_join sample_dir sample_fs); [reflexivity | discriminate].
Defined.

(** C5, as stated, fails.  The fragments [x] and [x\nx] are different, yet
    joining them in either order gives [x\nx\nx]. *)
Lemma C5_swap_leaves_join_unchanged :
  py "x" ≠ py "x" ++ NL ++ py "x"
  /\ str_join NL [py "x"; py "x" ++ NL ++ py "x"]
     = str_join NL [py "x" ++ NL ++ py "x"; py "x"].
Proof. split; [by vm_compute | reflexivity]. Qed.

Lemma str_join_inj_lines (l1 l2 : list str) :
  Forall (fun x => 10 ∉ x) l1 -> Forall (fun x => 10 ∉ x) l2 ->
  l1 ≠ [] -> l2 ≠ [] ->
  str_join NL l1 = str_join NL l2 -> l1 = l2.
Proof.
  intros H1. revert l2. induction H1 as [|x l1 Hx H1 IH]; intros l2 H2 Hne1 Hne2 Heq; [done|].
  destruct H2 as [|y l2 Hy H2]; [done|].
  destruct l1 as [|x' l1], l2 as [|y' l2].
  - simpl in Heq. by subst.
  - rewrite (str_join_cons _ y) in Heq by done. simpl in Heq. subst x.
    exfalso. apply Hx, elem_of_app. right. left.
  - rewrite (str_join_cons _ x) in Heq by done. simpl in Heq. subst y.
    exfalso. apply Hy, elem_of_app. right. left.
  - rewrite (str_join_cons _ x), (str_join_cons _ y) in Heq by done.
    destruct (first_sep_unique 10 x y _ _ Hx Hy Heq) as [-> Hrest].
    f_equal. by apply IH.
Qed.

Lemma str_join_two (l1 l2 : list str) :
  l1 ≠ [] -> l2 ≠ [] ->
  str_join NL (l1 ++ l2) = str_join NL l1 ++ NL ++ str_join NL l2.
Proof.
  intros Hl1 Hl2. induction l1 as [|x l1 IH]; [done|].
  destruct l1 as [|y l1].
  - simpl. by destruct l2.
  - change ((x :: y :: l1) ++ l2) with (x :: ((y :: l1) ++ l2)).
    rewrite !(str_join_cons NL x), IH by done. by rewrite <- !(assoc_L (++)).
Qed.

(** Two strings that continue with a line break and then agree as a whole
    are equal, or one of them is the other followed by a line break. *)
Lemma cut_at_line_break (a b x y : str) :
  a ++ 10 :: x = b ++ 10 :: y ->
  a = b \/ (exists d, b = a ++ NL ++ d) \/ (exists d, a = b ++ NL ++ d).
Proof.
  revert b. induction a as [|c a IH]; intros [|e b] Heq; simpl in Heq.
  - by left.
  - injection Heq as <- _. right. left. by exists b.
  - injection Heq as -> _. right. right. by exists a.
  - injection Heq as -> Heq. destruct (IH b Heq) as [-> | [[d ->] | [d ->]]].
    + by left.
    + right. left. by exists d.
    + right. right. by exists d.
Qed.

Lemma swap_changes_join (pre mid post : list str) (a b : str) :
  a ≠ b ->
  startswith b (a ++ NL) = false ->
  startswith a (b ++ NL) = false ->
  str_join NL (pre ++ a :: mid ++ b :: post)
  ≠ str_join NL (pre ++ b :: mid ++ a :: post).
Proof.
  intros Hne Hba Hab Heq.
  rewrite !str_join_app in Heq by done.
  apply (inj (app _)) in Heq.
  rewrite !str_join_cons in Heq by (by destruct mid).
  destruct (cut_at_line_break _ _ _ _ Heq) as [-> | [[d ->] | [d ->]]]; [done| |].
  - assert (startswith (a ++ NL ++ d) (a ++ NL) = true) as Htrue.
    { apply startswith_spec. exists d. by rewrite <- (assoc_L (++)). }
    by rewrite Htrue in Hba.
  - assert (startswith (b ++ NL ++ d) (b ++ NL) = true) as Htrue.
    { apply startswith_spec. exists d. by rewrite <- (assoc_L (++)). }
    by rewrite Htrue in Hab.
Qed.

Lemma startswith_longer (s t u : str) :
  startswith s t = false -> startswith s (t ++ u) = false.
Proof.
  intros Hst. destruct (startswith s (t ++ u)) eqn:Hstu; [|done].
  apply startswith_spec in Hstu as [d ->].
  assert (startswith ((t ++ u) ++ d) t = true) as Htrue.
  { apply startswith_spec. exists (u ++ d). by rewrite <- (assoc_L (++)). }
  by rewrite Htrue in Hst.
Qed.

Lemma startswith_line_break (s t : str) : 10 ∉ s -> startswith s (t ++ NL) = false.
Proof.
  intros Hs. destruct (startswith s (t ++ NL)) eqn:Hst; [|done].
  apply startswith_spec in Hst as [d ->]. exfalso. apply Hs.
  rewrite !elem_of_app. left. right. left.
Qed.

(** C5, amended.  Joining with line breaks keeps the fragments in sequence
    order: the join of one fragment is that fragment, and the join of two
    non-empty sequences put one after the other is the join of the first, a
    line break, and the join of the second.  Swapping two different
    fragments changes the composed string, whatever the other fragments are,
    unless one of the two is the other followed by a line break (and any
    text after it).  In particular it changes the composed string when
    neither fragment is a prefix of the other, and when neither contains a
    line break; and two non-empty sequences of fragments without line breaks
    that have the same composed string are equal. *)
Theorem C5_join_keeps_order_and_tells_swaps :
  (str_join NL [] = []
   /\ (forall x, str_join NL [x] = x)
   /\ (forall l1 l2 : list str,
          l1 ≠ [] -> l2 ≠ [] ->
          str_join NL (l1 ++ l2) = str_join NL l1 ++ NL ++ str_join NL l2))
  /\ (forall (pre mid post : list str) (a b : str),
         a ≠ b ->
         startswith b (a ++ NL) = false ->
         startswith a (b ++ NL) = false ->
         str_join NL (pre ++ a :: mid ++ b :: post)
         ≠ str_join NL (pre ++ b :: mid ++ a :: post))
  /\ (forall (pre mid post : list str) (a b : str),
         startswith b a = false ->
         startswith a b = false ->
         str_join NL (pre ++ a :: mid ++ b :: post)
         ≠ str_join NL (pre ++ b :: mid ++ a :: post))
  /\ (forall (pre mid post : list str) (a b : str),
         a ≠ b -> 10 ∉ a -> 10 ∉ b ->
         str_join NL (pre ++ a :: mid ++ b :: post)
         ≠ str_join NL (pre ++ b :: mid ++ a :: post))
  /\ (forall l1 l2 : list str,
         Forall (fun x => 10 ∉ x) l1 -> Forall (fun x => 10 ∉ x) l2 ->
         l1 ≠ [] -> l2 ≠ [] ->
         str_join NL l1 = str_join NL l2 -> l1 = l2).
Proof.
  split; [|split; [|split; [|split]]].
  - split; [done|]. split; [done|]. apply str_join_two.
  - apply swap_changes_join.
  - intros pre mid post a b Hba Hab. apply swap_changes_join.
    + intros ->. assert (startswith b b = true) as Htrue.
      { apply startswith_spec. exists []. by rewrite (right_id_L [] (++)). }
      by rewrite Htrue in Hba.
    + by apply startswith_longer.
    + by apply startswith_longer.
  - intros pre mid post a b Hne Ha Hb.
    apply swap_changes_join; [done | |]; by apply startswith_line_break.
  - apply str_join_inj_lines.
Qed.

Lemma C5_join_keeps_order_and_tells_swaps_witness :
  let a := py "var a = 1;" ++ NL ++ py "var b = 2;" in
  let b := py "var a = 1;" ++ NL ++ py "var c = 3;" in
  str_join NL ([py "first"] ++ a :: [py "between"] ++ b :: [py "last"])
  ≠ str_join NL ([py "first"] ++ b :: [py "between"] ++ a :: [py "last"]).
Proof.
  intros a b.
  apply (proj1 (proj2 C5_join_keeps_order_and_tells_swaps)
           [py "first"] [py "between"] [py "last"] a b).
  - vm_compute. discriminate.
  - vm_compute. reflexivity.
  - vm_compute. reflexivity.
Defined.

(** ** The header overlay *)

Lemma dict_unpack_then_outside (d : gmap str str) (items : list (str * str)) (k : str) :
  k ∉ items.*1 -> dict_unpack_then d items !! k = d !! k.
Proof.
  unfold dict_unpack_then. revert d.
  induction items as [|[k' v'] items IH]; intros d Hk; [done|]. simpl in *.
  apply not_elem_of_cons in Hk as [Hne Hk].
  rewrite (IH _ Hk). by apply lookup_insert_ne.
Qed.

Lemma dict_unpack_then_inside (d : gmap str str) (items : list (str * str)) (k v : str) :
  NoDup items.*1 -> (k, v) ∈ items -> dict_unpack_then d items !! k = Some v.
Proof.
  revert d. induction items as [|[k' v'] items IH]; intros d Hnd Hin.
  - by apply elem_of_nil in Hin.
  - simpl in Hnd. apply NoDup_cons in Hnd as [Hk' Hnd].
    apply elem_of_cons in Hin as [Heq | Hin].
    + injection Heq as -> ->.
      change (dict_unpack_then d ((k', v') :: items))
        with (dict_unpack_then (<[k' := v']> d) items).
      rewrite (dict_unpack_then_outside _ _ _ Hk'). apply lookup_insert_eq.
    + by apply (IH (<[k' := v']> d)).
Qed.

Lemma stealth_header_keys_NoDup : NoDup stealth_header_items.*1.
Proof. apply (bool_decide_unpack _). by vm_compute. Qed.

(** C3.  For every original header mapping, the mapping the handler forwards
    is the original updated at the fifteen keys of the spoof set: each
    spoofed key has the constant value whatever the original held for it,
    every other key has what the original had (or is absent as it was), and
    overlaying twice is overlaying once. *)
Theorem C3_header_overlay (H : gmap str str) :
  length stealth_header_items = 15%nat
  /\ NoDup stealth_header_items.*1
  /\ stealth_headers_handler {| headers := H |} = Continue (stealth_headers H)
  /\ (forall k v, (k, v) ∈ stealth_header_items -> stealth_headers H !! k = Some v)
  /\ (forall k, k ∉ stealth_header_items.*1 -> stealth_headers H !! k = H !! k)
  /\ stealth_headers (stealth_headers H) = stealth_headers H.
Proof.
  pose proof stealth_header_keys_NoDup as Hnd.
  split; [done|]. split; [done|]. split; [done|].
  split; [|split].
  - intros k v Hin. by apply dict_unpack_then_inside.
  - intros k Hk. by apply dict_unpack_then_outside.
  - apply map_eq. intros k. unfold stealth_headers.
    destruct (decide (k ∈ stealth_header_items.*1)) as [Hk | Hk].
    + apply list_elem_of_fmap in Hk as [[k' v] [-> Hin]].
      by rewrite !(dict_unpack_then_inside _ _ _ v Hnd Hin).
    + by rewrite !(dict_unpack_then_outside _ _ _ Hk).
Qed.

Lemma C3_header_overlay_witness :
  let H : gmap str str :=
    <[py "cookie" := py "session=1"]> {[ py "user-agent" := py "HeadlessChrome/129" ]} in
  stealth_headers H !! py "dnt" = Some (py "1")
  /\ stealth_headers H !! py "cookie" = H !! py "cookie".
Proof.
  intros H.
  destruct (C3_header_overlay H) as (_ & _ & _ & Hspoofed & Hkept & _). split.
  - apply Hspoofed. apply (bool_decide_unpack _). vm_compute. exact I.
  - apply Hkept. apply (bool_decide_unpack _). vm_compute. exact I.
Defined.

(** C8.  Building the registry is all or nothing.  If the file of any known
    patch is missing, unreadable or undecodable, evaluating [SCRIPTS] raises
    and there is no registry at all; and whenever it yields a registry, that
    registry has an entry for every known patch name, holding the text of
    its file, and no other entry. *)
Theorem C8_registry_all_or_nothing
    (os_path_join : str -> list str -> str) (module_dir : str) (fs : str -> file) :
  (forall k f,
      (k, f) ∈ patch_sources ->
      (forall text, fs (os_path_join module_dir [py "js"; f]) ≠ Text text) ->
      exists e, SCRIPTS os_path_join module_dir fs = Raise e)
  /\ (forall S,
         SCRIPTS os_path_join module_dir fs = Ok S ->
         dom S = list_to_set patch_names
         /\ forall k f,
              (k, f) ∈ patch_sources ->
              exists text,
                fs (os_path_join module_dir [py "js"; f]) = Text text
                /\ S !! k = Some text).
Proof.
  split.
  - intros k f Hin Hbad. rewrite SCRIPTS_as_table.
    apply dict_display_raise, Exists_exists.
    exists (k, from_file os_path_join module_dir fs f). split.
    + apply list_elem_of_fmap. by exists (k, f).
    + simpl. destruct (from_file os_path_join module_dir fs f) as [text|e] eqn:Hf; [|by exists e].
      apply from_file_Ok in Hf. by destruct (Hbad text).
  - intros S HS. split.
    + rewrite SCRIPTS_as_table in HS.
      rewrite (dict_display_dom _ _ _ HS), table_keys, dom_empty_L.
      by rewrite (left_id_L ∅ (∪)).
    + intros k f Hin. by apply (SCRIPTS_entry os_path_join module_dir fs).
Qed.

Lemma C8_registry_all_or_nothing_witness :
  (exists e, SCRIPTS posixpath_join sample_dir sample_fs_without_utils = Raise e)
  /\ dom sample_SCRIPTS = list_to_set patch_names.
Proof.
  split.
  - apply (proj1 (C8_registry_all_or_nothing posixpath_join sample_dir sample_fs_without_utils)
             (py "utils") (py "utils.js")).
    + apply (bool_decide_unpack _). vm_compute. exact I.
    + intros text. vm_compute. discriminate.
  - apply (proj2 (C8_registry_all_or_nothing posixpath_join sample_dir sample_fs) sample_SCRIPTS).
    unfold sample_SCRIPTS.
    assert (match SCRIPTS posixpath_join sample_dir sample_fs with Ok _ => true | Raise _ => false end
            = true) as H by (vm_compute; reflexivity).
    destruct (SCRIPTS posixpath_join sample_dir sample_fs); [reflexivity | discriminate].
Defined.

(** ** Further properties of the code *)

(** *** What [enabled_scripts] looks up *)

Lemma Gen_seq_ret (g : Gen unit) : (g;; mret tt) = g.
Proof.
  destruct g as [[[] out]|e]; [|done].
  unfold mbind, Gen_bind, mret, Gen_ret. by rewrite (right_id_L [] (++)).
Qed.

Lemma guarded_yields_getitems (S : gmap str str) (gs : list (bool * str)) :
  guarded_yields S gs
  = match getitems S (guarded_keys gs) with
    | Ok vs => Ok (tt, vs)
    | Raise e => Raise e
    end.
Proof.
  induction gs as [|[b k] gs IH]; [done|].
  change (guarded_yields S ((b, k) :: gs))
    with (when b (yield_item S k);; guarded_yields S gs).
  change (guarded_keys ((b, k) :: gs))
    with ((if b then [k] else []) ++ guarded_keys gs).
  rewrite IH. destruct b; simpl.
  - unfold yield_item, getitem. destruct (S !! k); simpl; [|done].
    by destruct (getitems S (guarded_keys gs)).
  - by destruct (getitems S (guarded_keys gs)).
Qed.

Lemma enabled_scripts_guards (S : gmap str str) (self : StealthConfig) :
  enabled_scripts S self = (yield (opts_constant self);; guarded_yields S (guards self)).
Proof.
  unfold guards, guarded_yields, toggle_order. cbn [fmap list_fmap foldr fst snd].
  rewrite (Gen_seq_ret (when (toggle_value T_webgl_vendor self) _)).
  reflexivity.
Qed.

Lemma guarded_keys_toggles (self : StealthConfig) (l : list toggle) :
  guarded_keys ((fun t => (toggle_value t self, toggle_key t)) <$> l)
  = toggle_key <$> filter (fun t => toggle_value t self = true) l.
Proof.
  induction l as [|t l IH]; [done|].
  rewrite filter_cons, fmap_cons.
  change (guarded_keys (?g :: ?gs))
    with ((if g.1 then [g.2] else []) ++ guarded_keys gs).
  rewrite IH. simpl. destruct (toggle_value t self); by case_decide.
Qed.

Lemma guarded_keys_guards (self : StealthConfig) :
  guarded_keys (guards self) = needed_keys self.
Proof.
  unfold guards, needed_keys, enabled_toggles.
  change (guarded_keys (?g1 :: ?g2 :: ?gs)) with (g1.2 :: g2.2 :: guarded_keys gs).
  by rewrite guarded_keys_toggles.
Qed.

(** The generator looks up the needed keys in order and yields the options
    constant followed by what it found. *)
Lemma enabled_scripts_getitems (S : gmap str str) (self : StealthConfig) :
  collect (enabled_scripts S self)
  = texts ← getitems S (needed_keys self); Ok (opts_constant self :: texts).
Proof.
  rewrite enabled_scripts_guards, guarded_yields_getitems, guarded_keys_guards.
  by destruct (getitems S (needed_keys self)).
Qed.

Lemma getitems_Ok (S : gmap str str) (ks : list str) :
  Forall (fun k => is_Some (S !! k)) ks -> getitems S ks = Ok ((S !!!.) <$> ks).
Proof.
  induction 1 as [|k ks [v Hv] _ IH]; [done|].
  simpl. unfold getitem. by rewrite (lookup_total_correct _ _ _ Hv), Hv, IH.
Qed.

Lemma getitems_Ok_inv (S : gmap str str) (ks : list str) (vs : list str) :
  getitems S ks = Ok vs ->
  vs = (S !!!.) <$> ks /\ Forall (fun k => is_Some (S !! k)) ks.
Proof.
  revert vs. induction ks as [|k ks IH]; intros vs Hvs; simpl in Hvs.
  - by injection Hvs as <-.
  - unfold getitem in Hvs. destruct (S !! k) as [v|] eqn:Hv; [|done]. simpl in Hvs.
    destruct (getitems S ks) as [vs'|] eqn:Hks; [|done]. simpl in Hvs.
    injection Hvs as <-. destruct (IH vs' eq_refl) as [-> Hall].
    split; [|by constructor].
    by rewrite fmap_cons, (lookup_total_correct _ _ _ Hv).
Qed.

Lemma getitems_first_missing (S : gmap str str) (pre post : list str) (k : str) :
  Forall (fun k' => is_Some (S !! k')) pre -> S !! k = None ->
  getitems S (pre ++ k :: post) = Raise (KeyError k).
Proof.
  intros Hpre Hk. induction Hpre as [|k' pre [v Hv] _ IH]; simpl.
  - unfold getitem. by rewrite Hk.
  - unfold getitem. by rewrite Hv, IH.
Qed.

Lemma getitems_ext (S1 S2 : gmap str str) (ks : list str) :
  (forall k, k ∈ ks -> S1 !! k = S2 !! k) -> getitems S1 ks = getitems S2 ks.
Proof.
  induction ks as [|k ks IH]; intros Hks; [done|]. simpl. unfold getitem.
  rewrite (Hks k) by left. rewrite IH; [done|].
  intros k' Hk'. apply Hks. by right.
Qed.

(** X1.  A registry that lacks an entry the configuration needs makes the
    generator raise [KeyError] for the first such key in lookup order, and
    the caller gets no fragment at all. *)
Theorem X1_first_missing_key_raises (S : gmap str str) (self : StealthConfig)
    (pre post : list str) (k : str) :
  needed_keys self = pre ++ k :: post ->
  Forall (fun k' => is_Some (S !! k')) pre ->
  S !! k = None ->
  collect (enabled_scripts S self) = Raise (KeyError k).
Proof.
  intros Hkeys Hpre Hk.
  by rewrite enabled_scripts_getitems, Hkeys, (getitems_first_missing _ _ _ _ Hpre Hk).
Qed.

Lemma X1_first_missing_key_raises_witness :
  collect (enabled_scripts (delete (py "chrome_csi") sample_SCRIPTS)
             StealthConfig_defaults)
  = Raise (KeyError (py "chrome_csi")).
Proof.
  apply (X1_first_missing_key_raises _ _
           [py "utils"; py "generate_magic_arrays"; py "chrome_app"]
           (skipn 4 (needed_keys StealthConfig_defaults))).
  - vm_compute. reflexivity.
  - apply (bool_decide_unpack _). vm_compute. exact I.
  - apply lookup_delete_eq.
Defined.

(** X2.  The generator needs registry entries only for [utils],
    [generate_magic_arrays] and the toggles that are on.  When those are
    present it yields the options constant followed by their texts in lookup
    order, whatever else the registry holds or lacks; and it yields a
    sequence only then. *)
Theorem X2_sequence_from_needed_entries (S : gmap str str) (self : StealthConfig) :
  (Forall (fun k => is_Some (S !! k)) (needed_keys self) ->
   collect (enabled_scripts S self)
   = Ok (opts_constant self :: ((S !!!.) <$> needed_keys self)))
  /\ (forall fragments,
         collect (enabled_scripts S self) = Ok fragments ->
         Forall (fun k => is_Some (S !! k)) (needed_keys self)
         /\ fragments = opts_constant self :: ((S !!!.) <$> needed_keys self)).
Proof.
  rewrite enabled_scripts_getitems. split.
  - intros Hall. by rewrite (getitems_Ok _ _ Hall).
  - intros fragments Hf.
    destruct (getitems S (needed_keys self)) as [texts|] eqn:Htexts; [|done].
    simpl in Hf. injection Hf as <-.
    by destruct (getitems_Ok_inv _ _ _ Htexts) as [-> Hall].
Qed.

Lemma X2_sequence_from_needed_entries_witness :
  collect (enabled_scripts (delete (py "chrome_app") sample_SCRIPTS)
             config_without_chrome_app)
  = Ok (opts_constant config_without_chrome_app
          :: ((delete (py "chrome_app") sample_SCRIPTS !!!.)
                <$> needed_keys config_without_chrome_app)).
Proof.
  apply (proj1 (X2_sequence_from_needed_entries _ _)).
  apply (bool_decide_unpack _). vm_compute. exact I.
Defined.

(** X3.  Two registries that agree on the entries a configuration needs give
    it the same outcome, sequence or exception. *)
Theorem X3_only_needed_entries_matter (S1 S2 : gmap str str) (self : StealthConfig) :
  (forall k, k ∈ needed_keys self -> S1 !! k = S2 !! k) ->
  collect (enabled_scripts S1 self) = collect (enabled_scripts S2 self).
Proof. intros Hagree. by rewrite !enabled_scripts_getitems, (getitems_ext S1 S2). Qed.

Lemma X3_only_needed_entries_matter_witness :
  collect (enabled_scripts sample_SCRIPTS config_without_chrome_app)
  = collect (enabled_scripts (delete (py "chrome_app") sample_SCRIPTS)
               config_without_chrome_app).
Proof.
  apply X3_only_needed_entries_matter.
  apply (proj1 (Forall_forall
           (fun k => sample_SCRIPTS !! k = delete (py "chrome_app") sample_SCRIPTS !! k)
           (needed_keys config_without_chrome_app))).
  apply (bool_decide_unpack _). vm_compute. exact I.
Defined.

(** X4.  A sequence has the three fixed fragments and one fragment for each
    toggle that is on: between 3 and 17 fragments. *)
Theorem X4_sequence_length (S : gmap str str) (self : StealthConfig)
    (fragments : list str) :
  collect (enabled_scripts S self) = Ok fragments ->
  length fragments = (3 + length (enabled_toggles self))%nat
  /\ (3 <= length fragments <= 17)%nat.
Proof.
  rewrite enabled_scripts_getitems. intros Hf.
  destruct (getitems S (needed_keys self)) as [texts|] eqn:Htexts; [|done].
  simpl in Hf. injection Hf as <-.
  destruct (getitems_Ok_inv _ _ _ Htexts) as [-> _].
  unfold needed_keys. simpl. rewrite !length_fmap.
  pose proof (length_filter (fun t => toggle_value t self = true) toggle_order) as Hle.
  change (length toggle_order) with 14%nat in Hle. unfold enabled_toggles. lia.
Qed.

Lemma X4_sequence_length_witness :
  let fragments :=
    opts_constant config_without_chrome_app
      :: ((delete (py "chrome_app") sample_SCRIPTS !!!.)
            <$> needed_keys config_without_chrome_app) in
  length fragments = (3 + length (enabled_toggles config_without_chrome_app))%nat
  /\ (3 <= length fragments <= 17)%nat.
Proof.
  intros fragments.
  apply (X4_sequence_length (delete (py "chrome_app") sample_SCRIPTS)
           config_without_chrome_app).
  vm_compute. reflexivity.
Defined.

Lemma getitems_sublist (S : gmap str str) (ks1 ks2 vs2 : list str) :
  ks1 `sublist_of` ks2 -> getitems S ks2 = Ok vs2 ->
  exists vs1, getitems S ks1 = Ok vs1 /\ vs1 `sublist_of` vs2.
Proof.
  intros Hsub. revert vs2.
  induction Hsub as [|k ks1 ks2 _ IH|k ks1 ks2 _ IH]; intros vs2 Hvs2; simpl in *.
  - injection Hvs2 as <-. by exists [].
  - destruct (getitem S k) as [v|]; [|done]. simpl in *.
    destruct (getitems S ks2) as [vs|]; [|done]. simpl in Hvs2. injection Hvs2 as <-.
    destruct (IH vs eq_refl) as (vs1 & -> & Hvs1). exists (v :: vs1).
    split; [done | by apply sublist_skip].
  - destruct (getitem S k) as [v|]; [|done]. simpl in *.
    destruct (getitems S ks2) as [vs|]; [|done]. simpl in Hvs2. injection Hvs2 as <-.
    destruct (IH vs eq_refl) as (vs1 & -> & Hvs1). exists vs1.
    split; [done | by apply sublist_cons].
Qed.

Lemma filter_sublist_impl (P Q : toggle -> Prop)
    `{!forall t, Decision (P t)} `{!forall t, Decision (Q t)} (l : list toggle) :
  (forall t, P t -> Q t) -> filter P l `sublist_of` filter Q l.
Proof.
  intros HPQ. induction l as [|t l IH]; [constructor|].
  rewrite !filter_cons. destruct (decide (P t)) as [HP|HP].
  - rewrite decide_True by auto. by apply sublist_skip.
  - destruct (decide (Q t)); [by apply sublist_cons | done].
Qed.

Lemma fmap_sublist (l1 l2 : list toggle) :
  l1 `sublist_of` l2 -> toggle_key <$> l1 `sublist_of` toggle_key <$> l2.
Proof. induction 1; simpl; by constructor. Qed.

(** X5.  Switching toggles off only removes fragments: if the toggles on in
    one configuration are among those on in another, with the same remaining
    options, the first sequence is the second with some fragments left out,
    the rest in the same order. *)
Theorem X5_fewer_toggles_give_a_subsequence (S : gmap str str) (self : StealthConfig)
    (f : toggle -> bool) (full : list str) :
  (forall t, f t = true -> toggle_value t self = true) ->
  collect (enabled_scripts S self) = Ok full ->
  exists part,
    collect (enabled_scripts S (with_toggles f self)) = Ok part
    /\ part `sublist_of` full.
Proof.
  intros Hf. rewrite !enabled_scripts_getitems. intros Hfull.
  destruct (getitems S (needed_keys self)) as [texts|] eqn:Htexts; [|done].
  simpl in Hfull. injection Hfull as <-.
  assert (needed_keys (with_toggles f self) `sublist_of` needed_keys self) as Hkeys.
  { unfold needed_keys, enabled_toggles. do 2 apply sublist_skip.
    apply fmap_sublist, filter_sublist_impl.
    intros t. rewrite toggle_value_with_toggles. apply Hf. }
  destruct (getitems_sublist S _ _ _ Hkeys Htexts) as (texts' & -> & Hsub).
  exists (opts_constant self :: texts'). split; [done | by apply sublist_skip].
Qed.

Lemma X5_fewer_toggles_give_a_subsequence_witness :
  exists part,
    collect (enabled_scripts sample_SCRIPTS
               (with_toggles (fun t => bool_decide (t = T_webdriver))
                  StealthConfig_defaults))
    = Ok part
    /\ part `sublist_of`
         (opts_constant StealthConfig_defaults
            :: ((sample_SCRIPTS !!!.) <$> needed_keys StealthConfig_defaults)).
Proof.
  apply (X5_fewer_toggles_give_a_subsequence sample_SCRIPTS StealthConfig_defaults).
  - intros t _. by destruct t.
  - vm_compute. reflexivity.
Defined.

(** *** The options constant *)

Lemma json_ind' (P : json -> Prop) :
  P JNull ->
  (forall b, P (JBool b)) ->
  (forall s, P (JStr s)) ->
  (forall items, Forall P items -> P (JList items)) ->
  (forall items, Forall (fun kv => P kv.2) items -> P (JDict items)) ->
  forall v, P v.
Proof.
  intros Hnull Hbool Hstr Hlist Hdict.
  refine (fix go (v : json) : P v :=
            match v with
            | JNull => Hnull
            | JBool b => Hbool b
            | JStr s => Hstr s
            | JList items =>
                Hlist items
                  ((fix go_list (l : list json) : Forall P l :=
                      match l with
                      | [] => @List.Forall_nil _ P
                      | x :: l' => @List.Forall_cons _ P x l' (go x) (go_list l')
                      end) items)
            | JDict items =>
                Hdict items
                  ((fix go_items (l : list (str * json))
                      : Forall (fun kv => P kv.2) l :=
                      match l with
                      | [] => @List.Forall_nil _ (fun kv => P kv.2)
                      | (k, x) :: l' =>
                          @List.Forall_cons _ (fun kv => P kv.2) (k, x) l' (go x)
                            (go_items l')
                      end) items)
            end).
Qed.

Lemma printable_literal (l : str) : bool_decide (Forall printable l) = true ->
  Forall printable l.
Proof. apply bool_decide_eq_true_1. Qed.

Lemma hex_digit_printable (n : N) : printable (hex_digit (N.land n 15)).
Proof.
  assert (N.land n 15 < 16) as Hlt.
  { change 15 with (N.ones 4). rewrite N.land_ones. by apply N.mod_lt. }
  unfold hex_digit, printable. destruct (N.ltb_spec (N.land n 15) 10); lia.
Qed.

Lemma hex_digits_printable (fuel : nat) (n : N) : Forall printable (hex_digits fuel n).
Proof.
  revert n. induction fuel as [|fuel IH]; intros n; simpl; [constructor|].
  apply Forall_app. split.
  - destruct (n <? 16); [constructor | apply IH].
  - apply List.Forall_cons; [apply hex_digit_printable | constructor].
Qed.

Lemma format_04x_printable (n : N) : Forall printable (format_04x n).
Proof.
  unfold format_04x. apply Forall_app. split.
  - apply Forall_replicate. unfold printable. lia.
  - apply hex_digits_printable.
Qed.

Lemma escape_char_printable (c : N) : Forall printable (escape_char c).
Proof.
  unfold escape_char.
  destruct (c =? 92); [by apply printable_literal|].
  destruct (c =? 34); [by apply printable_literal|].
  destruct (c =? 8); [by apply printable_literal|].
  destruct (c =? 12); [by apply printable_literal|].
  destruct (c =? 10); [by apply printable_literal|].
  destruct (c =? 13); [by apply printable_literal|].
  destruct (c =? 9); [by apply printable_literal|].
  destruct ((32 <=? c) && (c <=? 126)) eqn:Hc.
  { apply andb_true_iff in Hc as [H1%N.leb_le H2%N.leb_le].
    apply List.Forall_cons; [done | constructor]. }
  destruct (c <? 65536).
  - apply Forall_app. split; [by apply printable_literal | apply format_04x_printable].
  - cbv zeta.
    apply Forall_app. split; [by apply printable_literal|].
    apply Forall_app. split; [apply format_04x_printable|].
    apply Forall_app. split; [by apply printable_literal | apply format_04x_printable].
Qed.

Lemma encode_basestring_ascii_printable (s : str) :
  Forall printable (encode_basestring_ascii s).
Proof.
  unfold encode_basestring_ascii.
  apply Forall_app. split; [by apply printable_literal|].
  apply Forall_app. split; [|by apply printable_literal].
  induction s as [|c s IH]; simpl; [constructor|].
  apply Forall_app. split; [apply escape_char_printable | apply IH].
Qed.

Lemma str_join_printable (sep : str) (l : list str) :
  Forall printable sep -> Forall (Forall printable) l ->
  Forall printable (str_join sep l).
Proof.
  intros Hsep Hl. induction Hl as [|x l Hx Hl IH]; [constructor|].
  destruct l as [|y l]; [done|]. rewrite str_join_cons by done.
  apply Forall_app. split; [done|]. apply Forall_app. by split.
Qed.

Lemma dumps_printable (v : json) : Forall printable (dumps v).
Proof.
  induction v as [| [|] | s | items IH | items IH] using json_ind'.
  - by apply printable_literal.
  - by apply printable_literal.
  - by apply printable_literal.
  - apply encode_basestring_ascii_printable.
  - change (dumps (JList items))
      with (py "[" ++ str_join (py ", ") (map dumps items) ++ py "]").
    apply Forall_app. split; [by apply printable_literal|].
    apply Forall_app. split; [|by apply printable_literal].
    apply str_join_printable; [by apply printable_literal|].
    induction IH; simpl; by constructor.
  - change (dumps (JDict items))
      with (py "{"
            ++ str_join (py ", ")
                 (map (fun kv => encode_basestring_ascii kv.1 ++ py ": " ++ dumps kv.2)
                    items)
            ++ py "}").
    apply Forall_app. split; [by apply printable_literal|].
    apply Forall_app. split; [|by apply printable_literal].
    apply str_join_printable; [by apply printable_literal|].
    induction IH as [|kv items Hkv _ IH']; [constructor|].
    change (map ?f (kv :: items)) with (f kv :: map f items).
    constructor; [|done].
    apply Forall_app. split; [apply encode_basestring_ascii_printable|].
    apply Forall_app. split; [by apply printable_literal | done].
Qed.

(** X6.  Whatever strings the configuration holds, the options constant is
    one line of printable ASCII: [json.dumps] escapes every line break,
    control character and character outside ASCII. *)
Theorem X6_opts_constant_is_one_printable_line (self : StealthConfig) :
  Forall printable (opts_constant self) /\ 10 ∉ opts_constant self.
Proof.
  assert (Forall printable (opts_constant self)) as Hp.
  { unfold opts_constant. apply Forall_app.
    split; [by apply printable_literal | apply dumps_printable]. }
  split; [done|]. intros Hin.
  apply (proj1 (Forall_forall _ _) Hp) in Hin. unfold printable in Hin. lia.
Qed.

(** *** The composed script *)

Lemma occurs_in_str_join_elem (sep x : str) (l : list str) :
  x ∈ l -> occurs_in x (str_join sep l).
Proof.
  induction l as [|y l IH]; intros Hx; [by apply elem_of_nil in Hx|].
  destruct l as [|z l].
  - apply list_elem_of_singleton in Hx as ->. exists [], []. simpl.
    by rewrite (right_id_L [] (++)).
  - rewrite str_join_cons by done. apply elem_of_cons in Hx as [-> | Hx].
    + by exists [], (sep ++ str_join sep (z :: l)).
    + destruct (IH Hx) as (a & b & ->). exists (y ++ sep ++ a), b.
      by rewrite <- !(assoc_L (++)).
Qed.

Lemma str_join_length (sep : str) (l : list str) :
  length (str_join sep l)
  = (sum_list (length <$> l) + length sep * (length l - 1))%nat.
Proof.
  induction l as [|x l IH]; [simpl; lia|]. destruct l as [|y l].
  - simpl. lia.
  - rewrite str_join_cons by done. rewrite !length_app, IH. simpl. lia.
Qed.

Lemma collect_Ok_inv (S : gmap str str) (self : StealthConfig) (fragments : list str) :
  collect (enabled_scripts S self) = Ok fragments ->
  fragments = opts_constant self :: ((S !!!.) <$> needed_keys self).
Proof.
  rewrite enabled_scripts_getitems. intros Hf.
  destruct (getitems S (needed_keys self)) as [texts|] eqn:Htexts; [|done].
  simpl in Hf. injection Hf as <-.
  by destruct (getitems_Ok_inv _ _ _ Htexts) as [-> _].
Qed.

(** X7.  In the script that either operation registers, the first line is
    the options constant, whole and alone: the constant contains no line
    break and a line break follows it, so it precedes every patch text. *)
Theorem X7_first_line_is_the_options_constant (S : gmap str str)
    (config : option StealthConfig) (page : PageState) (fragments : list str) :
  collect (enabled_scripts S (config_or_default config)) = Ok fragments ->
  (10 ∉ opts_constant (config_or_default config))
  /\ exists rest,
       init_scripts (page_after (stealth_sync S SyncPage config) page)
       = init_scripts page ++ [opts_constant (config_or_default config) ++ NL ++ rest]
       /\ init_scripts (page_after (run_awaited (stealth_async S AsyncPage config)) page)
          = init_scripts page
            ++ [opts_constant (config_or_default config) ++ NL ++ rest
                ++ NL ++ END_MARKER].
Proof.
  intros Hf. split.
  { pose proof (dumps_printable (opts_dict (config_or_default config))) as Hp.
    intros Hin. unfold opts_constant in Hin. apply elem_of_app in Hin as [Hin | Hin].
    - revert Hin. apply (bool_decide_unpack _). by vm_compute.
    - apply (proj1 (Forall_forall _ _) Hp) in Hin. unfold printable in Hin. lia. }
  unfold page_after. rewrite stealth_sync_run, stealth_async_run, Hf.
  rewrite (collect_Ok_inv _ _ _ Hf). unfold needed_keys.
  rewrite !fmap_cons, str_join_cons by done.
  eexists. split; [reflexivity|]. cbn [init_scripts snd].
  by rewrite <- !(assoc_L (++) (opts_constant _)).
Qed.

Lemma X7_first_line_is_the_options_constant_witness :
  (10 ∉ opts_constant StealthConfig_defaults)
  /\ exists rest,
       init_scripts (page_after (stealth_sync sample_SCRIPTS SyncPage None) fresh_page)
       = [] ++ [opts_constant StealthConfig_defaults ++ NL ++ rest]
       /\ init_scripts
            (page_after (run_awaited (stealth_async sample_SCRIPTS AsyncPage None))
               fresh_page)
          = [] ++ [opts_constant StealthConfig_defaults ++ NL ++ rest
                   ++ NL ++ END_MARKER].
Proof.
  apply (X7_first_line_is_the_options_constant sample_SCRIPTS None fresh_page
           (opts_constant StealthConfig_defaults
              :: ((sample_SCRIPTS !!!.) <$> needed_keys StealthConfig_defaults))).
  vm_compute. reflexivity.
Defined.

(** X8.  The registered script contains the text of [utils], of
    [generate_magic_arrays] and of every patch whose toggle is on. *)
Theorem X8_enabled_patches_are_in_the_script (S : gmap str str)
    (config : option StealthConfig) (page : PageState) (fragments : list str) :
  collect (enabled_scripts S (config_or_default config)) = Ok fragments ->
  exists script,
    init_scripts (page_after (stealth_sync S SyncPage config) page)
    = init_scripts page ++ [script]
    /\ occurs_in (S !!! py "utils") script
    /\ occurs_in (S !!! py "generate_magic_arrays") script
    /\ forall t, toggle_value t (config_or_default config) = true ->
                 occurs_in (S !!! toggle_key t) script.
Proof.
  intros Hf. exists (str_join NL fragments). unfold page_after.
  rewrite stealth_sync_run, Hf. split; [done|].
  rewrite (collect_Ok_inv _ _ _ Hf). unfold needed_keys. rewrite !fmap_cons.
  split; [apply occurs_in_str_join_elem; right; left|].
  split; [apply occurs_in_str_join_elem; right; right; left|].
  intros t Ht. apply occurs_in_str_join_elem. do 3 right.
  apply list_elem_of_fmap. exists (toggle_key t). split; [done|].
  apply list_elem_of_fmap. exists t. split; [done|].
  apply list_elem_of_filter. split; [done | apply toggle_order_all].
Qed.

Lemma X8_enabled_patches_are_in_the_script_witness :
  exists script,
    init_scripts (page_after (stealth_sync sample_SCRIPTS SyncPage None) fresh_page)
    = [] ++ [script]
    /\ occurs_in (sample_SCRIPTS !!! py "utils") script
    /\ occurs_in (sample_SCRIPTS !!! py "generate_magic_arrays") script
    /\ forall t, toggle_value t StealthConfig_defaults = true ->
                 occurs_in (sample_SCRIPTS !!! toggle_key t) script.
Proof.
  apply (X8_enabled_patches_are_in_the_script sample_SCRIPTS None fresh_page
           (opts_constant StealthConfig_defaults
              :: ((sample_SCRIPTS !!!.) <$> needed_keys StealthConfig_defaults))).
  vm_compute. reflexivity.
Defined.

(** X9.  The synchronous script is as long as its fragments together plus
    one line break between each two; the asynchronous script is 20
    characters longer. *)
Theorem X9_script_length (S : gmap str str) (config : option StealthConfig)
    (page : PageState) (fragments : list str) :
  collect (enabled_scripts S (config_or_default config)) = Ok fragments ->
  exists sync_script async_script,
    init_scripts (page_after (stealth_sync S SyncPage config) page)
    = init_scripts page ++ [sync_script]
    /\ init_scripts (page_after (run_awaited (stealth_async S AsyncPage config)) page)
       = init_scripts page ++ [async_script]
    /\ length sync_script
       = (sum_list (length <$> fragments) + (length fragments - 1))%nat
    /\ length async_script = (length sync_script + 20)%nat.
Proof.
  intros Hf. eexists _, _. unfold page_after.
  rewrite stealth_sync_run, stealth_async_run, Hf.
  split; [reflexivity|]. split; [reflexivity|].
  rewrite !length_app, str_join_length. simpl. lia.
Qed.

Lemma X9_script_length_witness :
  let fragments :=
    opts_constant StealthConfig_defaults
      :: ((sample_SCRIPTS !!!.) <$> needed_keys StealthConfig_defaults) in
  exists sync_script async_script,
    init_scripts (page_after (stealth_sync sample_SCRIPTS SyncPage None) fresh_page)
    = [] ++ [sync_script]
    /\ init_scripts
         (page_after (run_awaited (stealth_async sample_SCRIPTS AsyncPage None))
            fresh_page)
       = [] ++ [async_script]
    /\ length sync_script
       = (sum_list (length <$> fragments) + (length fragments - 1))%nat
    /\ length async_script = (length sync_script + 20)%nat.
Proof.
  intros fragments.
  apply (X9_script_length sample_SCRIPTS None fresh_page fragments).
  vm_compute. reflexivity.
Defined.

(** X10.  When the generator raises, the operation raises the same exception
    before it touches the page: no init script and no rule is registered. *)
Theorem X10_failure_leaves_the_page_untouched (S : gmap str str)
    (config : option StealthConfig) (page : PageState) (e : exn) :
  collect (enabled_scripts S (config_or_default config)) = Raise e ->
  stealth_sync S SyncPage config page = (Raise e, page)
  /\ run_awaited (stealth_async S AsyncPage config) page = (Raise e, page).
Proof. intros He. by rewrite stealth_sync_run, stealth_async_run, He. Qed.

Lemma X10_failure_leaves_the_page_untouched_witness :
  stealth_sync ∅ SyncPage None fresh_page = (Raise (KeyError (py "utils")), fresh_page)
  /\ run_awaited (stealth_async ∅ AsyncPage None) fresh_page
     = (Raise (KeyError (py "utils")), fresh_page).
Proof.
  apply (X10_failure_leaves_the_page_untouched ∅ None fresh_page).
  vm_compute. reflexivity.
Defined.

(** *** The header overlay and its installation *)

(** X11.  The overlay drops no header and forgets exactly the original
    values of the spoofed ones: the forwarded mapping has the keys of the
    original together with the fifteen spoofed keys, and two requests get the
    same forwarded mapping exactly when their headers agree outside the
    spoof set. *)
Theorem X11_overlay_keys_and_erasure (H1 H2 : gmap str str) :
  dom (stealth_headers H1) = dom H1 ∪ list_to_set stealth_header_items.*1
  /\ (stealth_headers H1 = stealth_headers H2
      <-> forall k, k ∉ stealth_header_items.*1 -> H1 !! k = H2 !! k).
Proof.
  pose proof stealth_header_keys_NoDup as Hnd. split.
  - apply set_eq. intros k.
    rewrite elem_of_union, !elem_of_dom, elem_of_list_to_set. unfold stealth_headers.
    destruct (decide (k ∈ stealth_header_items.*1)) as [Hk | Hk].
    + split; [by right|]. intros _.
      apply list_elem_of_fmap in Hk as [[k' v] [-> Hin]].
      by rewrite (dict_unpack_then_inside _ _ _ v Hnd Hin).
    + rewrite (dict_unpack_then_outside _ _ _ Hk). split; [by left|].
      by intros [?|?].
  - unfold stealth_headers. split.
    + intros Heq k Hk.
      by rewrite <- (dict_unpack_then_outside H1 _ _ Hk), Heq,
        (dict_unpack_then_outside H2 _ _ Hk).
    + intros Hagree. apply map_eq. intros k.
      destruct (decide (k ∈ stealth_header_items.*1)) as [Hk | Hk].
      * apply list_elem_of_fmap in Hk as [[k' v] [-> Hin]].
        by rewrite !(dict_unpack_then_inside _ _ _ v Hnd Hin).
      * rewrite !(dict_unpack_then_outside _ _ _ Hk). by apply Hagree.
Qed.

Lemma X11_overlay_keys_and_erasure_witness :
  stealth_headers {[ py "user-agent" := py "HeadlessChrome/129" ]}
  = stealth_headers {[ py "user-agent" := py "curl/8" ]}.
Proof.
  apply (proj2 (X11_overlay_keys_and_erasure _ _)).
  intros k Hk. rewrite !lookup_singleton_ne; [done| |].
  - intros <-. apply Hk. apply (bool_decide_unpack _). vm_compute. exact I.
  - intros <-. apply Hk. apply (bool_decide_unpack _). vm_compute. exact I.
Defined.

(** X12.  The body of [add_stealth_headers] calls [page.route] without
    awaiting it.  Awaiting [add_stealth_headers] therefore registers the rule
    for every URL with the overlay handler on a synchronous page, and still
    registers nothing on an asynchronous page, whose [route] is a coroutine
    function itself. *)
Theorem X12_awaiting_add_stealth_headers (page : PageState) :
  page_after (run_awaited (add_stealth_headers SyncPage)) page
  = {| init_scripts := init_scripts page;
       routes := routes page
                 ++ [{| url := py "**/*"; handler := stealth_headers_handler |}] |}
  /\ page_after (run_awaited (add_stealth_headers AsyncPage)) page = page.
Proof. split; [reflexivity | by destruct page]. Qed.

(** *** Reading the patch files *)

Lemma dict_display_first_raise (pre post : list (str * res str)) (k : str) (e : exn)
    (d : gmap str str) :
  Forall (fun kv => exists v, kv.2 = Ok v) pre ->
  dict_display (pre ++ (k, Raise e) :: post) d = Raise e.
Proof.
  intros Hpre. revert d. induction Hpre as [|[k' r] pre [v Hv] _ IH]; intros d; [done|].
  simpl in Hv. subst r. simpl. apply IH.
Qed.

Lemma js_component_kept (x : str) :
  bool_decide (x ++ py "js" = []) || endswith (x ++ py "js") (py "/") = false.
Proof.
  apply orb_false_intro.
  - apply bool_decide_eq_false. by destruct x.
  - unfold endswith. by rewrite reverse_app.
Qed.

(** X13.  Where [os.path] is [posixpath], [from_file] opens
    [<module_dir>/js/<name>], putting a slash after a non-empty directory
    only if it does not already end with one; a name that starts with a
    slash is opened as it is, outside the package. *)
Theorem X13_from_file_path (module_dir : str) (fs : str -> file) (name : str) :
  (startswith name (py "/") = true ->
   from_file posixpath_join module_dir fs name = open_read fs name)
  /\ (startswith name (py "/") = false ->
      from_file posixpath_join module_dir fs name
      = open_read fs
          ((if bool_decide (module_dir = []) || endswith module_dir (py "/")
            then module_dir else module_dir ++ py "/")
           ++ py "js/" ++ name)).
Proof.
  unfold from_file, posixpath_join. cbn [foldl].
  change (startswith (py "js") (py "/")) with false. cbv iota.
  split; intros Hname; rewrite Hname; [done|]. f_equal.
  destruct (bool_decide (module_dir = []) || endswith module_dir (py "/")).
  - rewrite js_component_kept. by rewrite <- !(assoc_L (++)).
  - rewrite (assoc_L (++) module_dir), js_component_kept.
    by rewrite <- !(assoc_L (++)).
Qed.

Lemma X13_from_file_path_witness :
  from_file posixpath_join sample_dir sample_fs (py "/etc/hostname")
  = open_read sample_fs (py "/etc/hostname")
  /\ from_file posixpath_join sample_dir sample_fs (py "utils.js")
     = open_read sample_fs (py "/site-packages/playwright_stealth/js/utils.js").
Proof.
  split.
  - apply (proj1 (X13_from_file_path sample_dir sample_fs (py "/etc/hostname"))).
    vm_compute. reflexivity.
  - apply (proj2 (X13_from_file_path sample_dir sample_fs (py "utils.js"))).
    vm_compute. reflexivity.
Defined.

(** X14.  Importing the module reads the patch files in the order of the
    dict display and stops at the first one that cannot be read: [SCRIPTS]
    raises that file's exception, whatever the state of the files after
    it. *)
Theorem X14_first_unreadable_file_decides
    (os_path_join : str -> list str -> str) (module_dir : str) (fs : str -> file)
    (pre post : list (str * str)) (k f : str) (e : exn) :
  patch_sources = pre ++ (k, f) :: post ->
  Forall (fun kf => exists text, from_file os_path_join module_dir fs kf.2 = Ok text) pre ->
  from_file os_path_join module_dir fs f = Raise e ->
  SCRIPTS os_path_join module_dir fs = Raise e.
Proof.
  intros Hsplit Hpre He. rewrite SCRIPTS_as_table, Hsplit, fmap_app, fmap_cons.
  simpl. rewrite He. apply dict_display_first_raise.
  apply Forall_fmap. by apply (Forall_impl _ _ _ Hpre).
Qed.

Lemma X14_first_unreadable_file_decides_witness :
  SCRIPTS posixpath_join sample_dir sample_fs_without_utils
  = Raise (FileNotFoundError (py "/site-packages/playwright_stealth/js/utils.js")).
Proof.
  apply (X14_first_unreadable_file_decides posixpath_join sample_dir sample_fs_without_utils
           (take 14 patch_sources) (drop 15 patch_sources)
           (py "utils") (py "utils.js")).
  - vm_compute. reflexivity.
  - cbn [take patch_sources].
    repeat (apply List.Forall_cons; [eexists; vm_compute; reflexivity|]).
    constructor.
  - vm_compute. reflexivity.
Defined.

Lemma dict_display_all_ok (items : list (str * res str)) (d : gmap str str) :
  Forall (fun kv => exists v, kv.2 = Ok v) items ->
  exists S, dict_display items d = Ok S.
Proof.
  intros Hall. revert d. induction Hall as [|[k r] items [v Hv] _ IH]; intros d.
  - by exists d.
  - simpl in Hv. subst r. simpl. apply IH.
Qed.

(** X15.  If each of the seventeen patch files can be read, importing the
    module succeeds and binds a registry. *)
Theorem X15_readable_files_load
    (os_path_join : str -> list str -> str) (module_dir : str) (fs : str -> file) :
  (forall k f, (k, f) ∈ patch_sources ->
               exists text, fs (patch_path os_path_join module_dir f) = Text text) ->
  exists S, SCRIPTS os_path_join module_dir fs = Ok S.
Proof.
  intros Hall. rewrite SCRIPTS_as_table. apply dict_display_all_ok.
  apply Forall_fmap, Forall_forall. intros [k f] Hin.
  destruct (Hall k f Hin) as [text Htext]. exists text. by apply from_file_Ok.
Qed.

Lemma X15_readable_files_load_witness :
  exists S, SCRIPTS posixpath_join sample_dir sample_fs = Ok S.
Proof.
  apply X15_readable_files_load. intros k f Hin.
  assert (Forall (fun kf : str * str =>
                    exists text, sample_fs (patch_path posixpath_join sample_dir kf.2) = Text text)
            patch_sources) as Hall.
  { unfold patch_sources.
    repeat (apply List.Forall_cons; [eexists; vm_compute; reflexivity|]).
    constructor. }
  exact (proj1 (Forall_forall _ _) Hall (k, f) Hin).
Defined.

(** X16.  Importing the module reads the seventeen patch files and nothing
    else: two file systems that agree on those files give the same registry
    or the same exception. *)
Theorem X16_only_the_patch_files_are_read
    (os_path_join : str -> list str -> str) (module_dir : str) (fs1 fs2 : str -> file) :
  (forall k f, (k, f) ∈ patch_sources ->
               fs1 (patch_path os_path_join module_dir f) = fs2 (patch_path os_path_join module_dir f)) ->
  SCRIPTS os_path_join module_dir fs1 = SCRIPTS os_path_join module_dir fs2.
Proof.
  intros Hagree. rewrite !SCRIPTS_as_table. f_equal.
  apply Forall_fmap_ext, Forall_forall. intros [k f] Hin.
  unfold from_file, open_read. cbn [fst snd].
  fold (patch_path os_path_join module_dir f). by rewrite (Hagree k f Hin).
Qed.

Lemma X16_only_the_patch_files_are_read_witness :
  SCRIPTS posixpath_join sample_dir sample_fs = SCRIPTS posixpath_join sample_dir sample_fs_with_hostname.
Proof.
  apply X16_only_the_patch_files_are_read. intros k f Hin.
  assert (Forall (fun kf : str * str =>
                    sample_fs (patch_path posixpath_join sample_dir kf.2)
                    = sample_fs_with_hostname (patch_path posixpath_join sample_dir kf.2))
            patch_sources) as Hall.
  { unfold patch_sources.
    repeat (apply List.Forall_cons; [vm_compute; reflexivity|]).
    constructor. }
  exact (proj1 (Forall_forall _ _) Hall (k, f) Hin).
Defined.

(** *** Reads of the sequence and the module global *)




